(** * cashflowsim: the cashflow engine of [simulation/cashflow.go]

    A shallow embedding of the Go package [cashflow] (recurrence calculator,
    first-occurrence resolver, cashflow generator, balance accumulator,
    simulation orchestrator, and the simulation endpoint of [api.go] that
    calls it) together with the part of Go's [time] package the engine
    calls.

    Modelling decisions, all of them visible in the definitions below:

    - [time.Time] is an instant in the UTC location without monotonic clock
      reading (what [time.Date(..., time.UTC)] builds and what the tests
      use).  Such a value is determined by the number of nanoseconds elapsed
      since the zero time, January 1 of year 1, 00:00:00 UTC, so it is a [Z];
      on these values Go's [==] (the map key equality) and [Time.Equal]
      coincide.  The 64-bit range of the seconds counter (about 292 billion
      years) is not modelled.
    - [float64] is Rocq's primitive binary64 [float]: [==], [+] and the
      literals are the IEEE 754 operations the Go code runs.
    - [map[time.Time][]CashflowItem] is [gmap Z (list CashflowItem)]; ranging
      over it is [map_to_list], whose order is as unspecified as Go's.
    - the two [for] loops take a fuel argument and return [None] when it runs
      out; the functions called by the rest of the engine supply a fuel that
      is proved sufficient for every input. *)

From Stdlib Require Import ZArith Lia PrimFloat.
From stdpp Require Import gmap strings list sorting.

Local Open Scope Z_scope.

(** ** Go's [time] package, UTC only *)

Module time.

(** Nanoseconds since 0001-01-01T00:00:00Z. *)
Abbreviation Time := Z.

Definition nsPerSecond : Z := 1000000000.
Definition nsPerMinute : Z := 60 * nsPerSecond.
Definition nsPerHour : Z := 60 * nsPerMinute.
Definition nsPerDay : Z := 24 * nsPerHour.

Definition daysPer400Years : Z := 365 * 400 + 97.
Definition daysPer100Years : Z := 365 * 100 + 24.
Definition daysPer4Years : Z := 365 * 4 + 1.

(** [time.Time{}] *)
Definition zeroTime : Time := 0.

Definition IsZero (t : Time) : bool := t =? 0.
Definition Before (t u : Time) : bool := t <? u.
Definition After (t u : Time) : bool := u <? t.
Definition Equal (t u : Time) : bool := t =? u.

Definition isLeap (year : Z) : bool :=
  (year mod 4 =? 0) && (negb (year mod 100 =? 0) || (year mod 400 =? 0)).

(** [daysBefore[m]]: days in a non-leap year before month [m+1]. *)
Definition daysBefore (m : Z) : Z :=
  match m with
  | 0 => 0
  | 1 => 31
  | 2 => 59
  | 3 => 90
  | 4 => 120
  | 5 => 151
  | 6 => 181
  | 7 => 212
  | 8 => 243
  | 9 => 273
  | 10 => 304
  | 11 => 334
  | _ => 365
  end.

(** Length of month [month] (1..12) of [year]. *)
Definition daysIn (year month : Z) : Z :=
  if (month =? 2) && isLeap year then 29
  else daysBefore month - daysBefore (month - 1).

(** [norm hi lo base]: carry [lo] into [hi] so that [0 <= lo < base]. *)
Definition norm (hi lo base : Z) : Z * Z := (hi + lo / base, lo mod base).

(** Days from January 1 of year 1 to January 1 of [year]. *)
Definition daysSinceEpoch (year : Z) : Z :=
  let y := year - 1 in
  365 * y + y / 4 - y / 100 + y / 400.

(** Day number of a civil date whose month is already in 1..12. *)
Definition civilDays (year month day : Z) : Z :=
  daysSinceEpoch year + daysBefore (month - 1)
  + (if isLeap year && (3 <=? month) then 1 else 0)
  + (day - 1).

(** [time.Date(year, month, day, hour, min, sec, nsec, time.UTC)]: out of
    range fields are normalised, months into years and the clock fields
    into days. *)
Definition Date (year month day hour min sec nsec : Z) : Time :=
  let '(year, m) := norm year (month - 1) 12 in
  let month := m + 1 in
  let '(sec, nsec) := norm sec nsec nsPerSecond in
  let '(min, sec) := norm min sec 60 in
  let '(hour, min) := norm hour min 60 in
  let '(day, hour) := norm day hour 24 in
  let d := civilDays year month day in
  (d * 86400 + hour * 3600 + min * 60 + sec) * nsPerSecond + nsec.

(** A calendar date at midnight UTC. *)
Definition Day (year month day : Z) : Time := Date year month day 0 0 0 0.

(** [absDate]: year, month and day of a day number. *)
Definition absDate (days : Z) : Z * Z * Z :=
  (* 400-year cycles *)
  let n := days / daysPer400Years in
  let y := 400 * n in
  let d := days - daysPer400Years * n in
  (* 100-year cycles; the last one has an extra leap day *)
  let n := d / daysPer100Years in
  let n := n - n / 4 in
  let y := y + 100 * n in
  let d := d - daysPer100Years * n in
  (* 4-year cycles *)
  let n := d / daysPer4Years in
  let y := y + 4 * n in
  let d := d - daysPer4Years * n in
  (* years within a 4-year cycle; the last one is a leap year *)
  let n := d / 365 in
  let n := n - n / 4 in
  let y := y + n in
  let d := d - 365 * n in
  let year := y + 1 in
  let yday := d in
  if isLeap year && (yday =? 31 + 29 - 1) then (year, 2, 29)
  else
    let day := if isLeap year && (31 + 29 - 1 <? yday) then yday - 1 else yday in
    let month := day / 31 in
    let end_ := daysBefore (month + 1) in
    if end_ <=? day then (year, month + 2, day - end_ + 1)
    else (year, month + 1, day - daysBefore month + 1).

(** [t.Date()] *)
Definition civil (t : Time) : Z * Z * Z := absDate (t / nsPerDay).

(** [t.Clock()] and [t.Nanosecond()] *)
Definition Clock (t : Time) : Z * Z * Z :=
  let s := (t mod nsPerDay) / nsPerSecond in
  (s / 3600, (s mod 3600) / 60, s mod 60).
Definition Nanosecond (t : Time) : Z := t mod nsPerSecond.

(** [t.AddDate(years, months, days)] *)
Definition AddDate (t : Time) (years months days : Z) : Time :=
  let '(year, month, day) := civil t in
  let '(hour, min, sec) := Clock t in
  Date (year + years) (month + months) (day + days) hour min sec (Nanosecond t).

(** Month [mo] of [year], [mo] being any integer, normalised as [Date]
    does it ([norm year (mo - 1) 12]). *)
Definition normMonth (year mo : Z) : Z * Z :=
  (year + (mo - 1) / 12, (mo - 1) mod 12 + 1).

(** Day number of the first day of month [month] of [year], [month] being
    any integer. *)
Definition monthStart (year month : Z) : Z :=
  civilDays (year + (month - 1) / 12) ((month - 1) mod 12 + 1) 1.

(** *** Exhaustive checks over one 400-year cycle

    The Gregorian calendar repeats every [daysPer400Years] days, so the
    round trips between day numbers and civil dates are decided on one
    cycle and carried over to all of [Z] by periodicity. *)

(** [p k] for the [n] integers from [k] on. *)
Fixpoint allFrom (n : nat) (k : Z) (p : Z -> bool) : bool :=
  match n with
  | O => true
  | S n => p k && allFrom n (k + 1) p
  end.

(** Day number [r] of the first cycle: [absDate r] is a valid civil date of
    the years 1..400 and [civilDays] maps it back to [r]. *)
Definition cycleCheck (r : Z) : bool :=
  let '(y, m, d) := absDate r in
  (civilDays y m d =? r) && (1 <=? y) && (y <=? 400)
  && (1 <=? m) && (m <=? 12) && (1 <=? d) && (d <=? daysIn y m).

(** The [k]-th triple (year 1..400, month 1..12, day 1..31): if it is a
    valid date, its day number lies in the first cycle and [absDate] maps
    it back. *)
Definition civilCheck (k : Z) : bool :=
  let y := k / 372 + 1 in
  let m := (k mod 372) / 31 + 1 in
  let d := k mod 31 + 1 in
  if d <=? daysIn y m then
    let c := civilDays y m d in
    (0 <=? c) && (c <? daysPer400Years)
    && match absDate c with (y', m', d') => (y' =? y) && (m' =? m) && (d' =? d) end
  else true.

End time.

(** ** The package [cashflow] *)

Module cashflow.
Import time.

Local Open Scope string_scope.

(** [type Frequency string] *)
Abbreviation Frequency := string.

Definition Daily : Frequency := "daily".
Definition Weekly : Frequency := "weekly".
Definition Monthly : Frequency := "monthly".
Definition Quarterly : Frequency := "quarterly".
Definition SemiAnnual : Frequency := "semi-annual".
Definition Annual : Frequency := "annual".

Record Event := mkEvent {
  ev_Name : string;
  ev_StartDate : Time;
  ev_EndDate : Time;
  ev_Frequency : Frequency;
  ev_Value : float;
  ev_Obs : string
}.

Record CashflowItem := mkItem {
  it_Name : string;
  it_Value : float
}.

Record Cashflow := mkCashflow {
  cf_Date : Time;
  cf_Cashflow : float;
  cf_Balance : float;
  cf_Items : list CashflowItem
}.

Record SimulationRequest := mkRequest {
  req_Events : list Event;
  req_InitialBalance : float;
  req_SimStart : Time;
  req_SimEnd : Time
}.

Record SimulationResponse := mkResponse {
  resp_Cashflows : list Cashflow
}.

(** Go's [error] values built by [fmt.Errorf]: a message, or a message
    wrapping a cause ([%w]). *)
Inductive error : Type :=
| Errorf (msg : string)
| Wrapf (msg : string) (cause : error).

Inductive result (A : Type) : Type :=
| Ok (a : A)
| Err (e : error).
Arguments Ok {A} a.
Arguments Err {A} e.

(** The three failures of the engine, under the names the specification
    gives them. *)
Definition InvalidFrequency (freq : Frequency) : error :=
  Errorf ("invalid frequency: " +:+ freq).
Definition InvalidWindow : error :=
  Errorf "cf_begin must be before or equal to cf_end".
Definition SimulationError (cause : error) : error :=
  Wrapf "failed to generate cashflows: " cause.

(** [frequencyDeltas] maps frequencies to their time increments. *)
Definition frequencyTable : list (Frequency * (Time -> Time)) :=
  [ (Daily, fun t => AddDate t 0 0 1);
    (Weekly, fun t => AddDate t 0 0 7);
    (Monthly, fun t => AddDate t 0 1 0);
    (Quarterly, fun t => AddDate t 0 3 0);
    (SemiAnnual, fun t => AddDate t 0 6 0);
    (Annual, fun t => AddDate t 1 0 0) ].

Definition frequencyDeltas : gmap Frequency (Time -> Time) :=
  list_to_map frequencyTable.

Definition IsValidFrequency (freq : Frequency) : bool :=
  match frequencyDeltas !! freq with
  | Some _ => true
  | None => false
  end.

Definition GetNextDate (currentDate : Time) (freq : Frequency) : result Time :=
  match frequencyDeltas !! freq with
  | None => Err (InvalidFrequency freq)
  | Some delta => Ok (delta currentDate)
  end.

(** The search loop of [GetFirstDate]:
    [for currentDate.Before(cfBegin) { ... }].  [None]: out of fuel. *)
Fixpoint firstDateLoop (fuel : nat) (freq : Frequency) (cfBegin currentDate : Time)
  : option (Time * bool) :=
  match fuel with
  | O => None
  | S fuel =>
      if Before currentDate cfBegin then
        match GetNextDate currentDate freq with
        | Err _ => Some (zeroTime, false)
        | Ok nextDate => firstDateLoop fuel freq cfBegin nextDate
        end
      else Some (currentDate, true)
  end.

(** Every advancement moves a date forward by at least one day, so a loop
    that runs from [from] until it has passed [to] tests its condition at
    most this many times. *)
Definition loopFuel (from to : Time) : nat :=
  S (S (Z.to_nat ((to - from) / nsPerDay))).

Definition firstDateFrom (freq : Frequency) (cfBegin startDate : Time) : Time * bool :=
  default (zeroTime, false)
    (firstDateLoop (loopFuel startDate cfBegin) freq cfBegin startDate).

(** Steps 1 to 4 of [GetFirstDate]; [Some] is an early [return], [None]
    falls through to the search loop. *)
Definition firstDateEarly (event : Event) (cfBegin cfEnd : Time) : option (Time * bool) :=
  let startDate := ev_StartDate event in
  if Before cfEnd startDate then Some (zeroTime, false)
  else if negb (IsZero (ev_EndDate event)) && Before (ev_EndDate event) cfBegin
  then Some (zeroTime, false)
  else if String.eqb (ev_Frequency event) ""
          || (negb (IsZero (ev_EndDate event)) && Equal startDate (ev_EndDate event))
  then Some (startDate, true)
  else if String.eqb (ev_Frequency event) Daily then Some (cfBegin, true)
  else None.

Definition GetFirstDate_fuel (fuel : nat) (event : Event) (cfBegin cfEnd : Time)
  : option (Time * bool) :=
  match firstDateEarly event cfBegin cfEnd with
  | Some r => Some r
  | None => firstDateLoop fuel (ev_Frequency event) cfBegin (ev_StartDate event)
  end.

Definition GetFirstDate (event : Event) (cfBegin cfEnd : Time) : Time * bool :=
  match firstDateEarly event cfBegin cfEnd with
  | Some r => r
  | None => firstDateFrom (ev_Frequency event) cfBegin (ev_StartDate event)
  end.

(** [cfMap[currentDate] = append(cfMap[currentDate], item)]; a missing key
    reads as the nil slice. *)
Definition appendItem (currentDate : Time) (item : CashflowItem)
    (cfMap : gmap Z (list CashflowItem)) : gmap Z (list CashflowItem) :=
  <[currentDate := (default [] (cfMap !! currentDate) ++ [item])%list]> cfMap.

(** The expansion loop of [GenerateCashflows] for one event: [for { ... }]. *)
Fixpoint expandLoop (fuel : nat) (event : Event) (cfEnd currentDate : Time)
    (cfMap : gmap Z (list CashflowItem)) : option (gmap Z (list CashflowItem)) :=
  match fuel with
  | O => None
  | S fuel =>
      if After currentDate cfEnd then Some cfMap
      else if negb (IsZero (ev_EndDate event)) && Before (ev_EndDate event) currentDate
      then Some cfMap
      else
        let item := {| it_Name := ev_Name event; it_Value := ev_Value event |} in
        let cfMap := appendItem currentDate item cfMap in
        if String.eqb (ev_Frequency event) "" then Some cfMap
        else
          match GetNextDate currentDate (ev_Frequency event) with
          | Err _ => Some cfMap
          | Ok nextDate => expandLoop fuel event cfEnd nextDate cfMap
          end
  end.

Definition expand (event : Event) (cfEnd currentDate : Time)
    (cfMap : gmap Z (list CashflowItem)) : gmap Z (list CashflowItem) :=
  default cfMap (expandLoop (loopFuel currentDate cfEnd) event cfEnd currentDate cfMap).

(** The body of [for _, event := range events]. *)
Definition processEvent (cfBegin cfEnd : Time)
    (cfMap : gmap Z (list CashflowItem)) (event : Event) : gmap Z (list CashflowItem) :=
  if PrimFloat.eqb (ev_Value event) 0 then cfMap
  else
    let '(currentDate, ok) := GetFirstDate event cfBegin cfEnd in
    if negb ok then cfMap
    else expand event cfEnd currentDate cfMap.

Definition sumItems (items : list CashflowItem) : float :=
  fold_left (fun total item => PrimFloat.add total (it_Value item)) items 0%float.

(** The body of [for date, items := range cfMap]. *)
Definition toCashflow (entry : Time * list CashflowItem) : Cashflow :=
  {| cf_Date := entry.1;
     cf_Cashflow := sumItems entry.2;
     cf_Balance := 0;
     cf_Items := entry.2 |}.

(** The comparison handed to [sort.Slice]. *)
Definition less (a b : Cashflow) : bool := Before (cf_Date a) (cf_Date b).

(** [sort.Slice] leaves no element before one that is [less] than it: its
    result is [Sorted inOrder].  It is modelled by merge sort; on dates that
    are pairwise distinct, as the keys of a map are, every sorting algorithm
    returns the same slice ([result_independent_of_iteration_and_sort]
    below). *)
Definition inOrder (a b : Cashflow) : Prop := less b a = false.

#[global] Instance inOrder_dec : RelDecision inOrder :=
  fun a b => decide (less b a = false).

Definition sortCashflowsByDate (cashflows : list Cashflow) : list Cashflow :=
  merge_sort inOrder cashflows.

Definition GenerateCashflows (events : list Event) (cfBegin cfEnd : Time)
  : result (list Cashflow) :=
  if After cfBegin cfEnd then Err InvalidWindow
  else
    let cfMap := fold_left (processEvent cfBegin cfEnd) events ∅ in
    let cashflows := toCashflow <$> map_to_list cfMap in
    Ok (sortCashflowsByDate cashflows).

Definition emptyCashflowItems : list CashflowItem := [].

Definition setBalance (cf : Cashflow) (balance : float) : Cashflow :=
  {| cf_Date := cf_Date cf;
     cf_Cashflow := cf_Cashflow cf;
     cf_Balance := balance;
     cf_Items := cf_Items cf |}.

(** One round of [for _, cf := range cashflows] on the pair
    [(result, runningBalance)]. *)
Definition balanceStep (st : list Cashflow * float) (cf : Cashflow)
  : list Cashflow * float :=
  let runningBalance := PrimFloat.add st.2 (cf_Cashflow cf) in
  ((st.1 ++ [setBalance cf runningBalance])%list, runningBalance).

Definition BalanceFromCashflows (initialBalance : float) (simStart : Time)
    (cashflows : list Cashflow) : list Cashflow :=
  let result :=
    [ {| cf_Date := simStart;
         cf_Cashflow := 0;
         cf_Balance := initialBalance;
         cf_Items := emptyCashflowItems |} ] in
  (fold_left balanceStep cashflows (result, initialBalance)).1.

Definition RunSimulation (req : SimulationRequest) : result SimulationResponse :=
  match GenerateCashflows (req_Events req) (req_SimStart req) (req_SimEnd req) with
  | Err err => Err (SimulationError err)
  | Ok cashflows =>
      Ok {| resp_Cashflows :=
              BalanceFromCashflows (req_InitialBalance req) (req_SimStart req) cashflows |}
  end.

(** ** The simulation endpoint of [api.go]

    [handleSimulate] reads the method and the body of the request and writes
    one answer.  The request is represented by its method and by the outcome
    of [json.NewDecoder(r.Body).Decode(&req)]; the answer by the one call of
    [writeError] or [writeJSON] the handler makes.  Log lines are not
    modelled. *)






(** *** Vocabulary of the statements *)

(** The [CashflowItem] an event contributes. *)
Definition itemOf (event : Event) : CashflowItem :=
  {| it_Name := ev_Name event; it_Value := ev_Value event |}.

(** The aggregation map of a run: [cfMap] after the loop over the events. *)
Definition cfMapOf (events : list Event) (cfBegin cfEnd : Time)
  : gmap Z (list CashflowItem) :=
  fold_left (processEvent cfBegin cfEnd) events ∅.

(** [start] advanced [n] times by the recurrence calculator; [None] once an
    advancement fails. *)
Fixpoint nthOccurrence (freq : Frequency) (start : Time) (n : nat) : option Time :=
  match n with
  | O => Some start
  | S n =>
      match GetNextDate start freq with
      | Ok nextDate => nthOccurrence freq nextDate n
      | Err _ => None
      end
  end.

(** [k] is an occurrence of the recurrence that starts on [start]. *)
Definition occursAt (freq : Frequency) (start k : Time) : Prop :=
  exists n, nthOccurrence freq start n = Some k.

(** [k] is not after the end date of the event, if it has one. *)
Definition endOk (event : Event) (k : Time) : Prop :=
  ev_EndDate event = zeroTime \/ k <= ev_EndDate event.

(** [cfMap'] is [cfMap] with the item of [event] appended once to the slice
    of every date that satisfies [P], and nothing else changed. *)
Definition recordedOn (P : Time -> Prop) (event : Event)
    (cfMap cfMap' : gmap Z (list CashflowItem)) : Prop :=
  forall k,
    (P k -> cfMap' !! k = Some (default [] (cfMap !! k) ++ [itemOf event])%list)
    /\ (~ P k -> cfMap' !! k = cfMap !! k).

(** The event contributes on date [k] in the window: processed alone, it
    leaves a slice under [k]. *)
Definition firesOn (cfBegin cfEnd : Time) (k : Time) (event : Event) : bool :=
  bool_decide (is_Some (processEvent cfBegin cfEnd ∅ event !! k)).


End cashflow.

Import time cashflow.

(** * Go's calendar: day numbers and civil dates *)

Lemma allFrom_spec n p : forall k, allFrom n k p = true -> forall j, k <= j < k + Z.of_nat n -> p j = true.
Proof.
  induction n as [|n IH]; intros k H j Hj; [lia|].
  simpl in H. apply andb_prop in H as [H1 H2].
  destruct (decide (j = k)) as [->|]; [done|]. apply (IH (k + 1)); [done|lia].
Qed.

Lemma cycleCheck_all : allFrom (Z.to_nat daysPer400Years) 0 cycleCheck = true.
Proof. vm_compute. reflexivity. Qed.

Lemma civilCheck_all : allFrom (Z.to_nat (400 * 372)) 0 civilCheck = true.
Proof. vm_compute. reflexivity. Qed.

Lemma cycleCheck_ok r : 0 <= r < daysPer400Years -> cycleCheck r = true.
Proof.
  intros Hr. apply (allFrom_spec _ _ _ cycleCheck_all).
  rewrite Z2Nat.id; [lia|]. by vm_compute.
Qed.

Lemma civilCheck_ok k : 0 <= k < 400 * 372 -> civilCheck k = true.
Proof.
  intros Hr. apply (allFrom_spec _ _ _ civilCheck_all).
  rewrite Z2Nat.id; lia.
Qed.

Lemma isLeap_shift y q : isLeap (y + 400 * q) = isLeap y.
Proof.
  unfold isLeap.
  replace ((y + 400 * q) mod 4) with (y mod 4) by (Z.div_mod_to_equations; lia).
  replace ((y + 400 * q) mod 100) with (y mod 100) by (Z.div_mod_to_equations; lia).
  replace ((y + 400 * q) mod 400) with (y mod 400) by (Z.div_mod_to_equations; lia).
  reflexivity.
Qed.

Lemma daysSinceEpoch_shift y q : daysSinceEpoch (y + 400 * q) = daysSinceEpoch y + daysPer400Years * q.
Proof. unfold daysSinceEpoch, daysPer400Years. Z.div_mod_to_equations. lia. Qed.

Lemma civilDays_shift y m d q : civilDays (y + 400 * q) m d = civilDays y m d + daysPer400Years * q.
Proof. unfold civilDays. rewrite isLeap_shift, daysSinceEpoch_shift. lia. Qed.

Lemma daysIn_shift y m q : daysIn (y + 400 * q) m = daysIn y m.
Proof. unfold daysIn. by rewrite isLeap_shift. Qed.

Lemma absDate_shift r q :
  0 <= r < daysPer400Years ->
  absDate (r + daysPer400Years * q) = let '(y, m, d) := absDate r in (y + 400 * q, m, d).
Proof.
  intros Hr. unfold absDate.
  assert (Hq : (r + daysPer400Years * q) / daysPer400Years = q).
  { unfold daysPer400Years in *. Z.div_mod_to_equations. lia. }
  assert (H0 : r / daysPer400Years = 0) by (apply Z.div_small; lia).
  rewrite Hq, H0.
  replace (r + daysPer400Years * q - daysPer400Years * q) with r by lia.
  replace (r - daysPer400Years * 0) with r by lia.
  cbv zeta.
  set (n1 := r / daysPer100Years - r / daysPer100Years / 4).
  set (d1 := r - daysPer100Years * n1).
  set (n2 := d1 / daysPer4Years).
  set (d2 := d1 - daysPer4Years * n2).
  set (n3 := d2 / 365 - d2 / 365 / 4).
  set (d3 := d2 - 365 * n3).
  replace (400 * q + 100 * n1 + 4 * n2 + n3 + 1) with (400 * 0 + 100 * n1 + 4 * n2 + n3 + 1 + 400 * q) by lia.
  rewrite isLeap_shift.
  repeat case_match; simplify_eq; f_equal; try lia; try congruence.
Qed.

Lemma absDate_spec n y m d :
  absDate n = (y, m, d) ->
  civilDays y m d = n /\ 1 <= m <= 12 /\ 1 <= d <= daysIn y m.
Proof.
  intros H.
  pose proof (Z.div_mod n daysPer400Years ltac:(done)) as Hn.
  pose proof (Z.mod_pos_bound n daysPer400Years ltac:(done)) as Hr.
  set (q := n / daysPer400Years) in *. set (r := n mod daysPer400Years) in *.
  assert (Hs := absDate_shift r q Hr).
  replace (r + daysPer400Years * q) with n in Hs by lia.
  rewrite H in Hs.
  pose proof (cycleCheck_ok r Hr) as Hc. unfold cycleCheck in Hc.
  destruct (absDate r) as [[y0 m0] d0]. simplify_eq.
  repeat (apply andb_prop in Hc as [Hc ?]).
  rewrite civilDays_shift, daysIn_shift. lia.
Qed.

Lemma civilDays_absDate y m d :
  1 <= m <= 12 -> 1 <= d <= daysIn y m -> absDate (civilDays y m d) = (y, m, d).
Proof.
  intros Hm Hd.
  pose proof (Z.div_mod (y - 1) 400 ltac:(done)) as Hy.
  pose proof (Z.mod_pos_bound (y - 1) 400 ltac:(done)) as Hr.
  set (q := (y - 1) / 400) in *. set (r := (y - 1) mod 400) in *.
  replace y with (r + 1 + 400 * q) in * by lia.
  rewrite daysIn_shift in Hd. rewrite civilDays_shift.
  assert (Hd31 : d <= 31).
  { unfold daysIn in Hd. destruct (_ && _); [lia|].
    assert (m = 1 \/ m = 2 \/ m = 3 \/ m = 4 \/ m = 5 \/ m = 6 \/ m = 7 \/ m = 8 \/ m = 9
            \/ m = 10 \/ m = 11 \/ m = 12) as Hc by lia.
    destruct_or!; subst m; simpl in Hd; lia. }
  pose proof (civilCheck_ok (r * 372 + (m - 1) * 31 + (d - 1)) ltac:(lia)) as Hc.
  unfold civilCheck in Hc. cbv zeta in Hc.
  replace ((r * 372 + (m - 1) * 31 + (d - 1)) / 372 + 1) with (r + 1) in Hc
    by (Z.div_mod_to_equations; lia).
  replace ((r * 372 + (m - 1) * 31 + (d - 1)) mod 372 / 31 + 1) with m in Hc
    by (Z.div_mod_to_equations; lia).
  replace ((r * 372 + (m - 1) * 31 + (d - 1)) mod 31 + 1) with d in Hc
    by (Z.div_mod_to_equations; lia).
  destruct (Z.leb_spec d (daysIn (r + 1) m)); [|lia].
  apply andb_prop in Hc as [Hc Hc3]. apply andb_prop in Hc as [Hc1 Hc2].
  rewrite absDate_shift by lia.
  destruct (absDate (civilDays (r + 1) m d)) as [[y' m'] d'].
  repeat (apply andb_prop in Hc3 as [Hc3 ?]).
  f_equal; [f_equal|]; lia.
Qed.

(** The clock fields of a time add up to its time of day. *)
Lemma Clock_spec t h mi s :
  Clock t = (h, mi, s) ->
  h * nsPerHour + mi * nsPerMinute + s * nsPerSecond + Nanosecond t = t mod nsPerDay
  /\ 0 <= h < 24 /\ 0 <= mi < 60 /\ 0 <= s < 60 /\ 0 <= Nanosecond t < nsPerSecond.
Proof.
  unfold Clock, Nanosecond, nsPerHour, nsPerMinute, nsPerDay, nsPerHour, nsPerMinute, nsPerSecond.
  intros [= <- <- <-]. Z.div_mod_to_equations. lia.
Qed.

Lemma Date_spec y mo d h mi s ns :
  Date y mo d h mi s ns =
  (monthStart y mo + (d - 1)) * nsPerDay + h * nsPerHour + mi * nsPerMinute + s * nsPerSecond + ns.
Proof.
  unfold Date, norm, monthStart, civilDays, nsPerDay, nsPerHour, nsPerMinute, nsPerSecond.
  generalize (daysSinceEpoch (y + (mo - 1) / 12)); intros a.
  generalize (daysBefore ((mo - 1) mod 12 + 1 - 1)); intros b.
  generalize (if isLeap (y + (mo - 1) / 12) && (3 <=? (mo - 1) mod 12 + 1) then 1 else 0); intros c.
  Z.div_mod_to_equations. lia.
Qed.

Lemma daysIn_bounds y m : 1 <= m <= 12 -> 28 <= daysIn y m <= 31.
Proof.
  intros Hm. unfold daysIn. destruct (_ && _); [lia|].
  assert (m = 1 \/ m = 2 \/ m = 3 \/ m = 4 \/ m = 5 \/ m = 6 \/ m = 7 \/ m = 8 \/ m = 9
          \/ m = 10 \/ m = 11 \/ m = 12) as Hc by lia.
  destruct_or!; subst m; simpl; lia.
Qed.

Lemma monthStart_civil y m d : 1 <= m <= 12 -> monthStart y m + (d - 1) = civilDays y m d.
Proof.
  intros Hm. unfold monthStart.
  replace ((m - 1) / 12) with 0 by (Z.div_mod_to_equations; lia).
  replace ((m - 1) mod 12 + 1) with m by (Z.div_mod_to_equations; lia).
  rewrite Z.add_0_r. unfold civilDays. lia.
Qed.

Lemma monthStart_year y a mo : monthStart (y + a) mo = monthStart y (mo + 12 * a).
Proof.
  unfold monthStart.
  replace ((mo + 12 * a - 1) / 12) with ((mo - 1) / 12 + a) by (Z.div_mod_to_equations; lia).
  replace ((mo + 12 * a - 1) mod 12) with ((mo - 1) mod 12) by (Z.div_mod_to_equations; lia).
  f_equal. lia.
Qed.

Lemma daysSinceEpoch_succ y :
  daysSinceEpoch (y + 1) = daysSinceEpoch y + 365 + (if isLeap y then 1 else 0).
Proof.
  unfold daysSinceEpoch, isLeap.
  destruct (Z.eqb_spec (y mod 4) 0), (Z.eqb_spec (y mod 100) 0), (Z.eqb_spec (y mod 400) 0);
    simpl; Z.div_mod_to_equations; lia.
Qed.

Lemma monthStart_succ y mo :
  monthStart y (mo + 1) = monthStart y mo + daysIn (normMonth y mo).1 (normMonth y mo).2.
Proof.
  unfold monthStart, normMonth. simpl.
  pose proof (Z.div_mod (mo - 1) 12 ltac:(done)) as Hdm.
  pose proof (Z.mod_pos_bound (mo - 1) 12 ltac:(done)) as Hr.
  set (q := (mo - 1) / 12) in *. set (r := (mo - 1) mod 12) in *.
  destruct (decide (r = 11)) as [Hr11|Hr11].
  - replace ((mo + 1 - 1) / 12) with (q + 1) by (Z.div_mod_to_equations; lia).
    replace ((mo + 1 - 1) mod 12) with 0 by (Z.div_mod_to_equations; lia).
    rewrite Hr11. unfold civilDays, daysIn.
    replace (y + (q + 1)) with (y + q + 1) by lia.
    rewrite daysSinceEpoch_succ. simpl.
    destruct (isLeap (y + q)), (isLeap (y + q + 1)); simpl; lia.
  - replace ((mo + 1 - 1) / 12) with q by (Z.div_mod_to_equations; lia).
    replace ((mo + 1 - 1) mod 12) with (r + 1) by (Z.div_mod_to_equations; lia).
    unfold civilDays, daysIn.
    assert (r = 0 \/ r = 1 \/ r = 2 \/ r = 3 \/ r = 4 \/ r = 5 \/ r = 6 \/ r = 7 \/ r = 8
            \/ r = 9 \/ r = 10) as Hc by lia.
    destruct (isLeap (y + q)); destruct_or!; subst r; rewrite Hc; simpl; lia.
Qed.

Lemma normMonth_range y mo : 1 <= (normMonth y mo).2 <= 12.
Proof. unfold normMonth. simpl. Z.div_mod_to_equations. lia. Qed.

Lemma monthStart_add y mo k :
  0 <= k -> monthStart y mo + 28 * k <= monthStart y (mo + k) <= monthStart y mo + 31 * k.
Proof.
  intros Hk. revert k Hk. apply natlike_ind.
  - replace (mo + 0) with mo by lia. lia.
  - intros k Hk IH. replace (mo + Z.succ k) with (mo + k + 1) by lia.
    rewrite monthStart_succ.
    pose proof (daysIn_bounds (normMonth y (mo + k)).1 _ (normMonth_range y (mo + k))). lia.
Qed.

(** A time splits into its civil date and its time of day. *)
Lemma civil_spec t y m d :
  civil t = (y, m, d) ->
  t = (monthStart y m + (d - 1)) * nsPerDay + t mod nsPerDay
  /\ 1 <= m <= 12 /\ 1 <= d <= daysIn y m.
Proof.
  unfold civil. intros H%absDate_spec. destruct H as (H & Hm & Hd).
  split; [|done]. rewrite monthStart_civil, H by done.
  pose proof (Z.div_mod t nsPerDay ltac:(done)). lia.
Qed.

Lemma AddDate_spec t y m d years months days :
  civil t = (y, m, d) ->
  AddDate t years months days
  = (monthStart y (m + months + 12 * years) + (d + days - 1)) * nsPerDay + t mod nsPerDay.
Proof.
  intros Hc. unfold AddDate. rewrite Hc.
  destruct (Clock t) as [[h mi] s] eqn:Hk.
  apply Clock_spec in Hk as (Hk & _).
  rewrite Date_spec, monthStart_year. lia.
Qed.

Lemma AddDate_days t k : AddDate t 0 0 k = t + k * nsPerDay.
Proof.
  destruct (civil t) as [[y m] d] eqn:Hc.
  rewrite (AddDate_spec _ _ _ _ _ _ _ Hc).
  apply civil_spec in Hc as (Ht & _).
  replace (m + 0 + 12 * 0) with m by lia. lia.
Qed.

Lemma AddDate_months t years months :
  0 <= months + 12 * years ->
  t + 28 * (months + 12 * years) * nsPerDay <= AddDate t years months 0
  <= t + 31 * (months + 12 * years) * nsPerDay.
Proof.
  intros Hk.
  destruct (civil t) as [[y m] d] eqn:Hc.
  rewrite (AddDate_spec _ _ _ _ _ _ _ Hc).
  apply civil_spec in Hc as (Ht & _).
  pose proof (monthStart_add y m (months + 12 * years) Hk) as Hms.
  replace (m + months + 12 * years) with (m + (months + 12 * years)) by lia.
  unfold nsPerDay, nsPerHour, nsPerMinute, nsPerSecond in *. lia.
Qed.

Lemma frequencyTable_NoDup : NoDup (frequencyTable.*1).
Proof. compute_done. Qed.

Lemma frequencyDeltas_Some freq delta :
  frequencyDeltas !! freq = Some delta <-> (freq, delta) ∈ frequencyTable.
Proof.
  unfold frequencyDeltas. symmetry. apply elem_of_list_to_map. apply frequencyTable_NoDup.
Qed.

(** Every advancement moves a time forward, by one day at least and by 372
    days at most. *)
Lemma GetNextDate_advance t freq t' :
  GetNextDate t freq = Ok t' -> t + nsPerDay <= t' <= t + 372 * nsPerDay.
Proof.
  unfold GetNextDate. destruct (frequencyDeltas !! freq) as [delta|] eqn:Hd; [|done].
  intros [= <-]. apply frequencyDeltas_Some in Hd. unfold frequencyTable in Hd.
  rewrite !elem_of_cons, elem_of_nil in Hd.
  destruct Hd as [Hd|[Hd|[Hd|[Hd|[Hd|[Hd|[]]]]]]]; injection Hd as -> ->.
  - rewrite AddDate_days. unfold nsPerDay, nsPerHour, nsPerMinute, nsPerSecond. lia.
  - rewrite AddDate_days. unfold nsPerDay, nsPerHour, nsPerMinute, nsPerSecond. lia.
  - pose proof (AddDate_months t 0 1 ltac:(lia)).
    unfold nsPerDay, nsPerHour, nsPerMinute, nsPerSecond in *. lia.
  - pose proof (AddDate_months t 0 3 ltac:(lia)).
    unfold nsPerDay, nsPerHour, nsPerMinute, nsPerSecond in *. lia.
  - pose proof (AddDate_months t 0 6 ltac:(lia)).
    unfold nsPerDay, nsPerHour, nsPerMinute, nsPerSecond in *. lia.
  - pose proof (AddDate_months t 1 0 ltac:(lia)).
    unfold nsPerDay, nsPerHour, nsPerMinute, nsPerSecond in *. lia.
Qed.

(** * The two loops terminate *)

Lemma nsPerDay_pos : 0 < nsPerDay.
Proof. done. Qed.

(** *** The search loop of [GetFirstDate] *)

Lemma firstDateLoop_S n freq b cur :
  firstDateLoop (S n) freq b cur =
  if Before cur b then
    match GetNextDate cur freq with
    | Err _ => Some (zeroTime, false)
    | Ok nextDate => firstDateLoop n freq b nextDate
    end
  else Some (cur, true).
Proof. reflexivity. Qed.

Lemma firstDateLoop_mono freq b n m cur r :
  firstDateLoop n freq b cur = Some r -> (n <= m)%nat -> firstDateLoop m freq b cur = Some r.
Proof.
  revert m cur. induction n as [|n IH]; intros m cur H Hm; [done|].
  destruct m as [|m]; [lia|]. simpl in *.
  destruct (Before cur b); [|done].
  destruct (GetNextDate cur freq); [|done]. apply IH; [done|lia].
Qed.

Lemma firstDateLoop_terminates freq b n cur :
  (1 <= n)%nat -> (cur < b -> (b - cur) / nsPerDay + 2 <= Z.of_nat n) ->
  is_Some (firstDateLoop n freq b cur).
Proof.
  revert cur. induction n as [|n IH]; intros cur H1 Hn; [lia|].
  simpl. unfold Before. destruct (Z.ltb_spec cur b) as [Hlt|Hge]; [|done].
  destruct (GetNextDate cur freq) as [next|] eqn:Hnext; [|done].
  apply GetNextDate_advance in Hnext. specialize (Hn Hlt).
  pose proof nsPerDay_pos.
  assert (0 <= (b - cur) / nsPerDay) by (apply Z.div_pos; lia).
  apply IH; [lia|]. intros Hlt'.
  assert ((b - next) / nsPerDay + 1 <= (b - cur) / nsPerDay); [|lia].
  replace ((b - next) / nsPerDay + 1) with ((b - next + 1 * nsPerDay) / nsPerDay)
    by (rewrite Z.div_add by lia; done).
  apply Z.div_le_mono; lia.
Qed.

Lemma loopFuel_enough from to :
  (1 <= loopFuel from to)%nat /\ (from <= to -> (to - from) / nsPerDay + 2 <= Z.of_nat (loopFuel from to)).
Proof.
  unfold loopFuel. split; [lia|]. intros H.
  assert (0 <= (to - from) / nsPerDay) by (apply Z.div_pos; [lia|done]). lia.
Qed.

Lemma firstDateLoop_firstDateFrom freq b cur n :
  (loopFuel cur b <= n)%nat -> firstDateLoop n freq b cur = Some (firstDateFrom freq b cur).
Proof.
  intros Hn. unfold firstDateFrom.
  destruct (loopFuel_enough cur b) as [H1 H2].
  destruct (firstDateLoop_terminates freq b (loopFuel cur b) cur H1 ltac:(lia)) as [r Hr].
  rewrite Hr. simpl. by apply (firstDateLoop_mono _ _ _ _ _ _ Hr).
Qed.

(** The search loop as a recursive equation: the [for] statement of the
    source, one round unfolded. *)
Lemma firstDateFrom_unfold freq b cur :
  firstDateFrom freq b cur =
  if Before cur b then
    match GetNextDate cur freq with
    | Err _ => (zeroTime, false)
    | Ok nextDate => firstDateFrom freq b nextDate
    end
  else (cur, true).
Proof.
  pose proof (firstDateLoop_firstDateFrom freq b cur (S (loopFuel cur b)) ltac:(lia)) as H.
  rewrite firstDateLoop_S in H. destruct (Before cur b); [|congruence].
  destruct (GetNextDate cur freq) as [next|] eqn:Hnext; [|congruence].
  set (n := Nat.max (loopFuel cur b) (loopFuel next b)).
  pose proof (firstDateLoop_mono _ _ _ n _ _ H ltac:(lia)) as H1.
  pose proof (firstDateLoop_firstDateFrom freq b next n ltac:(lia)) as H2.
  congruence.
Qed.

(** *** The expansion loop of [GenerateCashflows] *)

Lemma expandLoop_S n ev e cur cfMap :
  expandLoop (S n) ev e cur cfMap =
  if After cur e then Some cfMap
  else if negb (IsZero (ev_EndDate ev)) && Before (ev_EndDate ev) cur then Some cfMap
  else
    let cfMap' := appendItem cur {| it_Name := ev_Name ev; it_Value := ev_Value ev |} cfMap in
    if String.eqb (ev_Frequency ev) "" then Some cfMap'
    else
      match GetNextDate cur (ev_Frequency ev) with
      | Err _ => Some cfMap'
      | Ok nextDate => expandLoop n ev e nextDate cfMap'
      end.
Proof. reflexivity. Qed.

Lemma expandLoop_mono ev e n m cur cfMap r :
  expandLoop n ev e cur cfMap = Some r -> (n <= m)%nat -> expandLoop m ev e cur cfMap = Some r.
Proof.
  revert m cur cfMap. induction n as [|n IH]; intros m cur cfMap H Hm; [done|].
  destruct m as [|m]; [lia|]. simpl in *.
  destruct (After cur e); [done|].
  destruct (_ && _); [done|].
  destruct (String.eqb _ _); [done|].
  destruct (GetNextDate cur _); [|done]. apply IH; [done|lia].
Qed.

Lemma expandLoop_terminates ev e n cur cfMap :
  (1 <= n)%nat -> (cur <= e -> (e - cur) / nsPerDay + 2 <= Z.of_nat n) ->
  is_Some (expandLoop n ev e cur cfMap).
Proof.
  revert cur cfMap. induction n as [|n IH]; intros cur cfMap H1 Hn; [lia|].
  simpl. unfold After. destruct (Z.ltb_spec e cur) as [Hlt|Hge]; [done|].
  destruct (_ && _); [done|].
  destruct (String.eqb _ _); [done|].
  destruct (GetNextDate cur _) as [next|] eqn:Hnext; [|done].
  apply GetNextDate_advance in Hnext. specialize (Hn Hge).
  pose proof nsPerDay_pos.
  assert (0 <= (e - cur) / nsPerDay) by (apply Z.div_pos; lia).
  apply IH; [lia|]. intros Hlt'.
  assert ((e - next) / nsPerDay + 1 <= (e - cur) / nsPerDay); [|lia].
  replace ((e - next) / nsPerDay + 1) with ((e - next + 1 * nsPerDay) / nsPerDay)
    by (rewrite Z.div_add by lia; done).
  apply Z.div_le_mono; lia.
Qed.

Lemma expandLoop_expand ev e cur cfMap n :
  (loopFuel cur e <= n)%nat -> expandLoop n ev e cur cfMap = Some (expand ev e cur cfMap).
Proof.
  intros Hn. unfold expand.
  destruct (loopFuel_enough cur e) as [H1 H2].
  destruct (expandLoop_terminates ev e (loopFuel cur e) cur cfMap H1 ltac:(lia)) as [r Hr].
  rewrite Hr. simpl. by apply (expandLoop_mono _ _ _ _ _ _ _ Hr).
Qed.

Lemma expand_unfold ev e cur cfMap :
  expand ev e cur cfMap =
  if After cur e then cfMap
  else if negb (IsZero (ev_EndDate ev)) && Before (ev_EndDate ev) cur then cfMap
  else
    let cfMap' := appendItem cur {| it_Name := ev_Name ev; it_Value := ev_Value ev |} cfMap in
    if String.eqb (ev_Frequency ev) "" then cfMap'
    else
      match GetNextDate cur (ev_Frequency ev) with
      | Err _ => cfMap'
      | Ok nextDate => expand ev e nextDate cfMap'
      end.
Proof.
  pose proof (expandLoop_expand ev e cur cfMap (S (loopFuel cur e)) ltac:(lia)) as H.
  rewrite expandLoop_S in H. destruct (After cur e); [congruence|].
  destruct (_ && _); [congruence|]. cbv zeta.
  destruct (String.eqb _ _); [congruence|].
  destruct (GetNextDate cur _) as [next|] eqn:Hnext; [|congruence].
  set (m' := appendItem _ _ _) in *.
  set (n := Nat.max (loopFuel cur e) (loopFuel next e)).
  pose proof (expandLoop_mono _ _ _ n _ _ _ H ltac:(lia)) as H1.
  pose proof (expandLoop_expand ev e next m' n ltac:(lia)) as H2.
  congruence.
Qed.

(** Induction over the rounds of the expansion loop: a property of the map
    kept by every recorded contribution holds when the loop is left. *)
Lemma expand_ind ev e (P : gmap Z (list CashflowItem) -> Prop) (Q : Z -> Prop) :
  (forall cur cfMap, Q cur -> cur <= e ->
     (IsZero (ev_EndDate ev) = true \/ cur <= ev_EndDate ev) ->
     P cfMap -> P (appendItem cur {| it_Name := ev_Name ev; it_Value := ev_Value ev |} cfMap)) ->
  (forall cur next, Q cur -> GetNextDate cur (ev_Frequency ev) = Ok next -> Q next) ->
  forall cur cfMap, Q cur -> P cfMap -> P (expand ev e cur cfMap).
Proof.
  intros Hstep HQ cur cfMap HQc HP.
  pose proof (expandLoop_expand ev e cur cfMap _ (Nat.le_refl _)) as H.
  revert H. generalize (expand ev e cur cfMap). generalize (loopFuel cur e).
  intros n. revert cur cfMap HQc HP. induction n as [|n IH]; intros cur cfMap HQc HP r; [done|].
  simpl. unfold After, Before.
  destruct (Z.ltb_spec e cur); [congruence|].
  destruct (IsZero (ev_EndDate ev)) eqn:Hz; simpl.
  - assert (P (appendItem cur {| it_Name := ev_Name ev; it_Value := ev_Value ev |} cfMap))
      by (apply Hstep; auto).
    destruct (String.eqb _ _); [congruence|].
    destruct (GetNextDate cur _) as [next|] eqn:Hnext; [|congruence].
    apply IH; eauto.
  - destruct (Z.ltb_spec (ev_EndDate ev) cur); [congruence|].
    assert (P (appendItem cur {| it_Name := ev_Name ev; it_Value := ev_Value ev |} cfMap))
      by (apply Hstep; auto).
    destruct (String.eqb _ _); [congruence|].
    destruct (GetNextDate cur _) as [next|] eqn:Hnext; [|congruence].
    apply IH; eauto.
Qed.

(** * The cashflow generator *)

#[global] Instance inOrder_total : Total inOrder.
Proof. intros a b. unfold inOrder, less, Before. rewrite !Z.ltb_ge. lia. Qed.

#[global] Instance inOrder_trans : Transitive inOrder.
Proof. intros a b c. unfold inOrder, less, Before. rewrite !Z.ltb_ge. lia. Qed.

Lemma GenerateCashflows_valid events b e :
  b <= e ->
  GenerateCashflows events b e
  = Ok (sortCashflowsByDate (toCashflow <$> map_to_list (cfMapOf events b e))).
Proof.
  intros Hbe. unfold GenerateCashflows, After.
  destruct (Z.ltb_spec e b); [lia|]. reflexivity.
Qed.

Lemma GenerateCashflows_inv events b e l :
  GenerateCashflows events b e = Ok l ->
  b <= e /\ l = sortCashflowsByDate (toCashflow <$> map_to_list (cfMapOf events b e)).
Proof.
  unfold GenerateCashflows, After.
  destruct (Z.ltb_spec e b); [done|]. intros [= <-]. done.
Qed.

Lemma sortCashflowsByDate_perm l : sortCashflowsByDate l ≡ₚ l.
Proof. apply merge_sort_Permutation. Qed.

(** The rows of a run are the entries of its aggregation map. *)
Lemma elem_of_GenerateCashflows events b e l cf :
  GenerateCashflows events b e = Ok l ->
  cf ∈ l <-> exists items, cfMapOf events b e !! cf_Date cf = Some items
                           /\ cf = toCashflow (cf_Date cf, items).
Proof.
  intros [_ ->]%GenerateCashflows_inv.
  rewrite sortCashflowsByDate_perm, list_elem_of_fmap. split.
  - intros [[k items] [-> Hin%elem_of_map_to_list]]. exists items. done.
  - intros [items [Hl Hcf]]. exists (cf_Date cf, items). split; [done|].
    by apply elem_of_map_to_list.
Qed.




(** *** Invariants of the aggregation map *)

Lemma lookup_appendItem cur item (m : gmap Z (list CashflowItem)) k :
  appendItem cur item m !! k
  = if decide (cur = k) then Some (default [] (m !! cur) ++ [item]) else m !! k.
Proof. unfold appendItem. apply lookup_insert. Qed.

Lemma processEvent_ind b e (P : gmap Z (list CashflowItem) -> Prop) ev cfMap :
  (PrimFloat.eqb (ev_Value ev) 0 = false ->
   forall cur m, cur <= e -> (IsZero (ev_EndDate ev) = true \/ cur <= ev_EndDate ev) ->
                 P m -> P (appendItem cur (itemOf ev) m)) ->
  P cfMap -> P (processEvent b e cfMap ev).
Proof.
  intros Hstep HP. unfold processEvent.
  destruct (PrimFloat.eqb (ev_Value ev) 0); [done|].
  destruct (GetFirstDate ev b e) as [cur [|]]; [|done]. simpl.
  apply (expand_ind ev e P (fun _ => True)); auto.
Qed.

Lemma cfMapOf_ind b e (P : gmap Z (list CashflowItem) -> Prop) events :
  P ∅ ->
  (forall ev cur m, ev ∈ events -> PrimFloat.eqb (ev_Value ev) 0 = false ->
     cur <= e -> (IsZero (ev_EndDate ev) = true \/ cur <= ev_EndDate ev) ->
     P m -> P (appendItem cur (itemOf ev) m)) ->
  P (cfMapOf events b e).
Proof.
  unfold cfMapOf. generalize (∅ : gmap Z (list CashflowItem)).
  induction events as [|ev events IH]; intros m Hm Hstep; [done|].
  simpl. apply IH.
  - apply processEvent_ind; [|done]. intros Hv cur m' ???. apply Hstep; [left|..]; done.
  - intros ev' cur m' Hin. apply Hstep. by right.
Qed.

(** Every slice stored in the map is non-empty and holds no zero value. *)
Lemma cfMapOf_items events b e k items :
  cfMapOf events b e !! k = Some items ->
  items <> [] /\ Forall (fun item => PrimFloat.eqb (it_Value item) 0 = false) items.
Proof.
  revert k items.
  apply (cfMapOf_ind b e (fun m => forall k items, m !! k = Some items ->
    items <> [] /\ Forall (fun item => PrimFloat.eqb (it_Value item) 0 = false) items)).
  - intros k items. by rewrite lookup_empty.
  - intros ev cur m _ Hv _ _ IH k items. rewrite lookup_appendItem.
    case_decide; [|apply IH]. intros [= <-]. split.
    + by destruct (default [] (m !! cur)).
    + apply Forall_app. split.
      * destruct (m !! cur) as [old|] eqn:Hold; simpl; [by apply (IH cur)|constructor].
      * by repeat constructor.
Qed.

(** No key of the map is later than the end of the window. *)
Lemma cfMapOf_upper events b e k :
  is_Some (cfMapOf events b e !! k) -> k <= e.
Proof.
  revert k. apply (cfMapOf_ind b e (fun m => forall k, is_Some (m !! k) -> k <= e)).
  - intros k. rewrite lookup_empty. by intros [? ?].
  - intros ev cur m _ _ Hcur _ IH k. rewrite lookup_appendItem.
    case_decide; [lia|apply IH].
Qed.

(** * Comparisons of [time.Time], as propositions *)

Lemma Before_lt t u : Before t u = true <-> t < u.
Proof. apply Z.ltb_lt. Qed.

Lemma Before_ge t u : Before t u = false <-> u <= t.
Proof. apply Z.ltb_ge. Qed.


Lemma After_ge t u : After t u = false <-> t <= u.
Proof. apply Z.ltb_ge. Qed.

Lemma IsZero_true t : IsZero t = true <-> t = zeroTime.
Proof. apply Z.eqb_eq. Qed.

Lemma IsZero_false t : IsZero t = false <-> t <> zeroTime.
Proof. apply Z.eqb_neq. Qed.

Lemma Equal_true t u : Equal t u = true <-> t = u.
Proof. apply Z.eqb_eq. Qed.

Lemma Equal_false t u : Equal t u = false <-> t <> u.
Proof. apply Z.eqb_neq. Qed.

(** * Month arithmetic past the end of a month *)

Lemma civilDays_day y m d : civilDays y m d = civilDays y m 1 + (d - 1).
Proof. unfold civilDays. lia. Qed.

Lemma civil_of_days n tod : 0 <= tod < nsPerDay -> civil (n * nsPerDay + tod) = absDate n.
Proof.
  intros H. unfold civil. f_equal.
  unfold nsPerDay, nsPerHour, nsPerMinute, nsPerSecond in *. Z.div_mod_to_equations. lia.
Qed.

Lemma mod_of_days n tod : 0 <= tod < nsPerDay -> (n * nsPerDay + tod) mod nsPerDay = tod.
Proof.
  intros H.
  unfold nsPerDay, nsPerHour, nsPerMinute, nsPerSecond in *. Z.div_mod_to_equations. lia.
Qed.

(** Adding months to a day that the target month does not have lands in the
    month after it. *)
Lemma AddDate_rollover t y m d years months :
  civil t = (y, m, d) ->
  0 <= months + 12 * years ->
  let target := normMonth y (m + (months + 12 * years)) in
  let following := normMonth y (m + (months + 12 * years) + 1) in
  daysIn target.1 target.2 < d ->
  civil (AddDate t years months 0) = (following.1, following.2, d - daysIn target.1 target.2)
  /\ AddDate t years months 0 mod nsPerDay = t mod nsPerDay.
Proof.
  intros Hc Hk target following Hd.
  rewrite (AddDate_spec _ _ _ _ _ _ _ Hc).
  apply civil_spec in Hc as (Ht & Hm & Hdr).
  pose proof (daysIn_bounds y m Hm) as Hb.
  pose proof (daysIn_bounds target.1 target.2 (normMonth_range _ _)) as Hbt.
  pose proof (daysIn_bounds following.1 following.2 (normMonth_range _ _)) as Hbf.
  pose proof (Z.mod_pos_bound t nsPerDay nsPerDay_pos) as Htod.
  replace (m + months + 12 * years) with (m + (months + 12 * years)) by lia.
  pose proof (monthStart_succ y (m + (months + 12 * years))) as Hs.
  fold target in Hs.
  replace (monthStart y (m + (months + 12 * years)) + (d + 0 - 1))
    with (civilDays following.1 following.2 (d - daysIn target.1 target.2)).
  2:{ rewrite civilDays_day.
      change (monthStart y (m + (months + 12 * years) + 1))
        with (civilDays following.1 following.2 1) in Hs. lia. }
  rewrite civil_of_days, mod_of_days by done.
  split; [|done]. apply civilDays_absDate; [apply normMonth_range|lia].
Qed.

(** The clock fields depend on the time of day only. *)
Lemma Clock_mod t u :
  t mod nsPerDay = u mod nsPerDay -> Clock t = Clock u /\ Nanosecond t = Nanosecond u.
Proof.
  intros H. unfold Clock, Nanosecond. rewrite H. split; [done|].
  replace (t mod nsPerSecond) with ((t mod nsPerDay) mod nsPerSecond).
  2:{ unfold nsPerDay, nsPerHour, nsPerMinute, nsPerSecond. Z.div_mod_to_equations. lia. }
  rewrite H.
  unfold nsPerDay, nsPerHour, nsPerMinute, nsPerSecond. Z.div_mod_to_equations. lia.
Qed.

(** * The balance fold *)

Lemma fold_balanceStep cashflows acc rb :
  fold_left balanceStep cashflows (acc, rb)
  = (acc ++ imap (fun i cf => setBalance cf
                    (fold_left PrimFloat.add (cf_Cashflow <$> take (S i) cashflows) rb))
             cashflows,
     fold_left PrimFloat.add (cf_Cashflow <$> cashflows) rb).
Proof.
  revert acc rb. induction cashflows as [|cf cashflows IH]; intros acc rb.
  - simpl. by rewrite app_nil_r.
  - simpl. unfold balanceStep at 2. simpl. rewrite IH, <- app_assoc. done.
Qed.

Lemma GetFirstDate_fuel_enough ev b e n :
  (loopFuel (ev_StartDate ev) b <= n)%nat ->
  GetFirstDate_fuel n ev b e = Some (GetFirstDate ev b e).
Proof.
  intros Hn. unfold GetFirstDate_fuel, GetFirstDate.
  destruct (firstDateEarly ev b e); [done|]. by apply firstDateLoop_firstDateFrom.
Qed.

(** * The claims of the specification *)

(** C1.  The specification says that, for a valid window, [GenerateCashflows]
    never returns an entry dated outside [[window_begin, window_end]].  The
    code does: an event without frequency and without end date fires on its
    start date even when that date is before [window_begin], because
    [GetFirstDate] returns the start date unchanged and the expansion loop
    only tests the end of the window.  For the window 2025-01-01 ..
    2025-12-31 and the one-time event "Deposit" of 2024-06-01, the run
    returns one entry, dated 2024-06-01. *)
Theorem C1_one_time_event_before_window_is_reported :
  Day 2025 1 1 <= Day 2025 12 31
  /\ GenerateCashflows [mkEvent "Deposit" (Day 2024 6 1) zeroTime "" 100 ""]
       (Day 2025 1 1) (Day 2025 12 31)
     = Ok [mkCashflow (Day 2024 6 1) 100 0 [mkItem "Deposit" 100]]
  /\ Day 2024 6 1 < Day 2025 1 1.
Proof. by vm_compute. Qed.

(** C2.  [GenerateCashflows] fails if and only if [cfBegin] is strictly
    after [cfEnd], whatever the events (the empty list included), and then
    with [InvalidWindow]; for every other window it returns a list.
    [RunSimulation] fails in exactly the same case, with that error wrapped
    as its own and no response, and otherwise returns the balanced
    ledger. *)
Theorem C2_invalid_window_is_the_only_failure events initialBalance b e :
  (GenerateCashflows events b e = Err InvalidWindow <-> e < b)
  /\ (forall err, GenerateCashflows events b e = Err err -> err = InvalidWindow)
  /\ ((exists l, GenerateCashflows events b e = Ok l) <-> b <= e)
  /\ (RunSimulation (mkRequest events initialBalance b e) = Err (SimulationError InvalidWindow)
      <-> e < b)
  /\ (forall err, RunSimulation (mkRequest events initialBalance b e) = Err err ->
        err = SimulationError InvalidWindow)
  /\ (forall l, GenerateCashflows events b e = Ok l ->
        RunSimulation (mkRequest events initialBalance b e)
        = Ok {| resp_Cashflows := BalanceFromCashflows initialBalance b l |}).
Proof.
  unfold RunSimulation, GenerateCashflows, After. simpl.
  destruct (Z.ltb_spec e b) as [Hlt|Hge].
  - repeat split; try done; try lia; try congruence.
    intros [l Hl]. done.
  - repeat split; try done; try lia; try congruence.
    intros _. eauto.
Qed.

(** C3.  [BalanceFromCashflows] returns [n+1] rows for [n] entries: first
    the synthetic row dated [simStart] with cashflow 0, no items and the
    initial balance (also when [n = 0]), then the entries in input order,
    each with its date, cashflow and items unchanged and with balance
    [initialBalance + c1 + ... + ci], the sum taken from left to right as the
    loop takes it. *)
Theorem C3_BalanceFromCashflows_running_balance initialBalance simStart cashflows :
  BalanceFromCashflows initialBalance simStart cashflows
  = {| cf_Date := simStart; cf_Cashflow := 0; cf_Balance := initialBalance; cf_Items := [] |}
    :: imap (fun i cf =>
               {| cf_Date := cf_Date cf;
                  cf_Cashflow := cf_Cashflow cf;
                  cf_Balance :=
                    fold_left PrimFloat.add (cf_Cashflow <$> take (S i) cashflows) initialBalance;
                  cf_Items := cf_Items cf |}) cashflows
  /\ length (BalanceFromCashflows initialBalance simStart cashflows) = S (length cashflows).
Proof.
  assert (H : BalanceFromCashflows initialBalance simStart cashflows
    = {| cf_Date := simStart; cf_Cashflow := 0; cf_Balance := initialBalance; cf_Items := [] |}
      :: imap (fun i cf =>
               {| cf_Date := cf_Date cf;
                  cf_Cashflow := cf_Cashflow cf;
                  cf_Balance :=
                    fold_left PrimFloat.add (cf_Cashflow <$> take (S i) cashflows) initialBalance;
                  cf_Items := cf_Items cf |}) cashflows).
  { unfold BalanceFromCashflows. rewrite fold_balanceStep. reflexivity. }
  split; [done|]. rewrite H. simpl. by rewrite length_imap.
Qed.

(** C4.  Advancing by the monthly, quarterly, semi-annual or annual
    frequency (1, 3, 6 or 12 months) a time whose day of the month does not
    exist in the target month does not clamp to the last day of the target
    month: the result is in the month after the target month, on day
    [d - length of the target month], at the same time of day.  So
    2025-01-31 advanced monthly is 2025-03-03; advanced quarterly it is
    2025-05-01; 2025-08-31 advanced semi-annually is 2026-03-03; and
    2024-02-29 advanced annually is 2025-03-01. *)
Theorem C4_month_advance_rolls_over :
  (forall t freq k y m d,
      (freq, k) ∈ [(Monthly, 1); (Quarterly, 3); (SemiAnnual, 6); (Annual, 12)] ->
      civil t = (y, m, d) ->
      let target := normMonth y (m + k) in
      let following := normMonth y (m + k + 1) in
      daysIn target.1 target.2 < d ->
      exists next,
        GetNextDate t freq = Ok next
        /\ civil next = (following.1, following.2, d - daysIn target.1 target.2)
        /\ civil next <> (target.1, target.2, daysIn target.1 target.2)
        /\ Clock next = Clock t /\ Nanosecond next = Nanosecond t)
  /\ GetNextDate (Day 2025 1 31) Monthly = Ok (Day 2025 3 3)
  /\ GetNextDate (Day 2025 1 31) Quarterly = Ok (Day 2025 5 1)
  /\ GetNextDate (Day 2025 8 31) SemiAnnual = Ok (Day 2026 3 3)
  /\ GetNextDate (Day 2024 2 29) Annual = Ok (Day 2025 3 1).
Proof.
  split; [|by vm_compute].
  intros t freq k y m d Hin Hc target following Hd.
  assert (exists years months, k = months + 12 * years /\ 0 <= months + 12 * years
            /\ GetNextDate t freq = Ok (AddDate t years months 0))
    as (years & months & -> & Hk & Hnext).
  { rewrite !elem_of_cons, elem_of_nil in Hin.
    destruct Hin as [Hin|[Hin|[Hin|[Hin|[]]]]]; injection Hin as -> ->.
    - by exists 0, 1.
    - by exists 0, 3.
    - by exists 0, 6.
    - by exists 1, 0. }
  destruct (AddDate_rollover t y m d years months Hc Hk Hd) as [H1 H2].
  exists (AddDate t years months 0). split; [done|]. split; [done|].
  split; [|by apply Clock_mod].
  rewrite H1. intros [= _ _ Heq].
  pose proof (daysIn_bounds target.1 target.2 (normMonth_range _ _)).
  apply civil_spec in Hc as (_ & Hm & Hdr).
  pose proof (daysIn_bounds y m Hm). unfold target, normMonth in *. simpl in *. lia.
Qed.

Lemma C4_month_advance_rolls_over_witness :
  exists next,
    GetNextDate (Date 2025 1 31 9 30 0 0) Monthly = Ok next
    /\ civil next = (2025, 3, 3)
    /\ civil next <> (2025, 2, 28)
    /\ Clock next = (9, 30, 0) /\ Nanosecond next = 0.
Proof.
  apply (proj1 C4_month_advance_rolls_over (Date 2025 1 31 9 30 0 0) Monthly 1 2025 1 31);
    [ set_solver | by vm_compute | by vm_compute ].
Defined.

(** C5.  For an event with frequency daily whose start date is not after
    [window_end], whose end date is absent or not before [window_begin],
    and whose end date differs from its start date, [GetFirstDate] returns
    [window_begin] with success, wherever the start date lies. *)
Theorem C5_daily_first_date ev b e :
  ev_Frequency ev = Daily ->
  ev_StartDate ev <= e ->
  ev_EndDate ev = zeroTime \/ b <= ev_EndDate ev ->
  ev_EndDate ev <> ev_StartDate ev ->
  GetFirstDate ev b e = (b, true).
Proof.
  intros Hf Hs He Hne. unfold GetFirstDate, firstDateEarly. rewrite Hf.
  apply Before_ge in Hs. rewrite Hs.
  assert (negb (IsZero (ev_EndDate ev)) && Before (ev_EndDate ev) b = false) as ->.
  { destruct He as [->%IsZero_true| ->%Before_ge]; [done|]. apply andb_false_r. }
  assert (Equal (ev_StartDate ev) (ev_EndDate ev) = false) as ->
    by (apply Equal_false; congruence).
  rewrite andb_false_r. reflexivity.
Qed.

Lemma C5_daily_first_date_witness :
  GetFirstDate (mkEvent "Coffee" (Day 2025 3 10) zeroTime Daily (-4) "")
    (Day 2025 1 1) (Day 2025 12 31)
  = (Day 2025 1 1, true).
Proof.
  apply C5_daily_first_date; [reflexivity | by vm_compute | by left | by vm_compute].
Defined.

(** C6.  An event with nonzero value whose end date is present and equal
    to its start date, the start date lying in the window, is recorded
    exactly once, on its start date, whatever its frequency: the round of
    the event loop appends its item to the slice of that date and changes
    nothing else, so that alone it yields the single entry of that date. *)
Theorem C6_start_equals_end_fires_once ev b e :
  PrimFloat.eqb (ev_Value ev) 0 = false ->
  ev_EndDate ev <> zeroTime ->
  ev_EndDate ev = ev_StartDate ev ->
  b <= ev_StartDate ev <= e ->
  (forall cfMap, processEvent b e cfMap ev = appendItem (ev_StartDate ev) (itemOf ev) cfMap)
  /\ GenerateCashflows [ev] b e
     = Ok [ {| cf_Date := ev_StartDate ev;
               cf_Cashflow := PrimFloat.add 0 (ev_Value ev);
               cf_Balance := 0;
               cf_Items := [itemOf ev] |} ].
Proof.
  intros Hv Hz Heq [Hb He].
  assert (Hp : forall cfMap, processEvent b e cfMap ev
                             = appendItem (ev_StartDate ev) (itemOf ev) cfMap).
  { intros cfMap. unfold processEvent. rewrite Hv.
    assert (GetFirstDate ev b e = (ev_StartDate ev, true)) as ->.
    { unfold GetFirstDate, firstDateEarly. rewrite Heq.
      assert (Before e (ev_StartDate ev) = false) as -> by (by apply Before_ge).
      assert (IsZero (ev_StartDate ev) = false) as -> by (apply IsZero_false; congruence).
      assert (Before (ev_StartDate ev) b = false) as -> by (by apply Before_ge).
      assert (Equal (ev_StartDate ev) (ev_StartDate ev) = true) as -> by (by apply Equal_true).
      simpl. by rewrite orb_true_r. }
    simpl. rewrite expand_unfold.
    assert (After (ev_StartDate ev) e = false) as -> by (by apply After_ge).
    rewrite Heq.
    assert (Before (ev_StartDate ev) (ev_StartDate ev) = false) as ->
      by (apply Before_ge; lia).
    rewrite andb_false_r. cbv zeta.
    destruct (String.eqb _ _); [done|].
    destruct (GetNextDate _ _) as [next|] eqn:Hnext; [|done].
    apply GetNextDate_advance in Hnext. pose proof nsPerDay_pos.
    rewrite expand_unfold, Heq.
    destruct (After next e); [done|].
    assert (IsZero (ev_StartDate ev) = false) as -> by (apply IsZero_false; congruence).
    assert (Before (ev_StartDate ev) next = true) as -> by (apply Before_lt; lia).
    done. }
  split; [done|].
  rewrite GenerateCashflows_valid by lia. unfold cfMapOf. simpl. rewrite Hp.
  unfold appendItem. rewrite lookup_empty. simpl. rewrite insert_empty, map_to_list_singleton.
  reflexivity.
Qed.

Lemma C6_start_equals_end_fires_once_witness :
  (forall cfMap,
     processEvent (Day 2025 1 1) (Day 2025 12 31) cfMap
       (mkEvent "Bonus" (Day 2025 6 15) (Day 2025 6 15) Monthly 100 "")
     = appendItem (Day 2025 6 15) (mkItem "Bonus" 100) cfMap)
  /\ GenerateCashflows [mkEvent "Bonus" (Day 2025 6 15) (Day 2025 6 15) Monthly 100 ""]
       (Day 2025 1 1) (Day 2025 12 31)
     = Ok [mkCashflow (Day 2025 6 15) 100 0 [mkItem "Bonus" 100]].
Proof.
  apply (C6_start_equals_end_fires_once
           (mkEvent "Bonus" (Day 2025 6 15) (Day 2025 6 15) Monthly 100 ""));
    [reflexivity | by vm_compute | reflexivity | by vm_compute].
Defined.

(** C7.  For every event list and valid window, [GenerateCashflows]
    returns entries each of whose cashflow is the sum of the values of its
    items (added from left to right, starting from 0, as the code adds
    them), whose item list is not empty, and none of whose items has value
    0: events of value zero are skipped before they are expanded. *)
Theorem C7_cashflow_is_sum_of_nonzero_items events b e :
  b <= e ->
  exists l, GenerateCashflows events b e = Ok l
    /\ Forall (fun cf =>
         cf_Cashflow cf = fold_left PrimFloat.add (it_Value <$> cf_Items cf) 0%float
         /\ cf_Items cf <> []
         /\ Forall (fun item => PrimFloat.eqb (it_Value item) 0 = false) (cf_Items cf)) l.
Proof.
  intros Hbe. eexists. split; [by apply GenerateCashflows_valid|].
  apply Forall_forall. intros cf Hcf.
  apply (elem_of_GenerateCashflows events b e) in Hcf as [items [Hl ->]];
    [|by apply GenerateCashflows_valid].
  simpl. split; [|by apply (cfMapOf_items _ _ _ _ _ Hl)].
  unfold sumItems. generalize 0%float. clear. induction items as [|it items IH]; intros z; [done|].
  simpl. apply IH.
Qed.

Lemma C7_cashflow_is_sum_of_nonzero_items_witness :
  exists l, GenerateCashflows
              [mkEvent "A" (Day 2025 1 15) zeroTime "" 1000 "";
               mkEvent "Z" (Day 2025 1 15) zeroTime "" 0 "";
               mkEvent "B" (Day 2025 1 15) zeroTime "" 2000 ""]
              (Day 2025 1 1) (Day 2025 3 31) = Ok l
    /\ Forall (fun cf =>
         cf_Cashflow cf = fold_left PrimFloat.add (it_Value <$> cf_Items cf) 0%float
         /\ cf_Items cf <> []
         /\ Forall (fun item => PrimFloat.eqb (it_Value item) 0 = false) (cf_Items cf)) l.
Proof. apply C7_cashflow_is_sum_of_nonzero_items. by vm_compute. Defined.



(** C9.  Every advancement of the recurrence calculator returns a strictly
    later time; hence the search loop of [GetFirstDate], which advances the
    start date while it is before [window_begin], needs only finitely many
    rounds: for every frequency, window and start there is an amount of
    fuel from which on the loop returns, and [GetFirstDate] is total. *)
Theorem C9_first_occurrence_search_terminates :
  (forall t freq t', GetNextDate t freq = Ok t' -> Before t t' = true)
  /\ (forall freq b cur, exists n, forall m, (n <= m)%nat ->
        firstDateLoop m freq b cur = Some (firstDateFrom freq b cur))
  /\ (forall ev b e, exists n, forall m, (n <= m)%nat ->
        GetFirstDate_fuel m ev b e = Some (GetFirstDate ev b e)).
Proof.
  split; [|split].
  - intros t freq t' H%GetNextDate_advance. apply Before_lt.
    pose proof nsPerDay_pos. lia.
  - intros freq b cur. exists (loopFuel cur b). intros m Hm.
    by apply firstDateLoop_firstDateFrom.
  - intros ev b e. exists (loopFuel (ev_StartDate ev) b). intros m Hm.
    by apply GetFirstDate_fuel_enough.
Qed.

(** C10.  The claim says that the dates of the ledger returned by
    [RunSimulation] never decrease.  They do when a one-time event starts
    before [sim_start]: its entry, dated before [sim_start], follows the
    synthetic first row, which is dated [sim_start].  For the simulation
    2025-01-01 .. 2025-12-31 with initial balance 1000 and the one-time
    event "Deposit" of 2024-06-01, the ledger is the row of 2025-01-01
    followed by the row of 2024-06-01. *)
Theorem C10_ledger_dates_can_decrease :
  RunSimulation (mkRequest [mkEvent "Deposit" (Day 2024 6 1) zeroTime "" 100 ""]
                           1000 (Day 2025 1 1) (Day 2025 12 31))
  = Ok {| resp_Cashflows :=
            [mkCashflow (Day 2025 1 1) 0 1000 [];
             mkCashflow (Day 2024 6 1) 100 1100 [mkItem "Deposit" 100]] |}
  /\ Day 2024 6 1 < Day 2025 1 1.
Proof. by vm_compute. Qed.

(** * Further properties of the engine *)

(** * Occurrences of a recurrence *)

Lemma occursAt_refl freq cur : occursAt freq cur cur.
Proof. by exists 0%nat. Qed.

Lemma occursAt_step freq cur next k :
  GetNextDate cur freq = Ok next ->
  occursAt freq cur k <-> k = cur \/ occursAt freq next k.
Proof.
  intros Hn. split.
  - intros [[|n] H]; simpl in H; [left; congruence|]. rewrite Hn in H. right. by exists n.
  - intros [->|[n H]]; [apply occursAt_refl|]. exists (S n). simpl. by rewrite Hn.
Qed.

Lemma occursAt_last freq cur err k :
  GetNextDate cur freq = Err err -> occursAt freq cur k <-> k = cur.
Proof.
  intros Hn. split.
  - intros [[|n] H]; simpl in H; [congruence|]. by rewrite Hn in H.
  - intros ->. apply occursAt_refl.
Qed.

Lemma nthOccurrence_ge freq n : forall cur k,
  nthOccurrence freq cur n = Some k -> cur + Z.of_nat n * nsPerDay <= k.
Proof.
  induction n as [|n IH]; intros cur k H; simpl in H.
  - injection H as ->. lia.
  - destruct (GetNextDate cur freq) as [next|] eqn:Hn; [|done].
    apply GetNextDate_advance in Hn. apply IH in H. lia.
Qed.

Lemma occursAt_ge freq cur k : occursAt freq cur k -> cur <= k.
Proof.
  intros [n H%nthOccurrence_ge]. pose proof nsPerDay_pos. nia.
Qed.

(** * What the expansion loop records *)

Lemma recordedOn_ext P Q ev m m' :
  (forall k, P k <-> Q k) -> recordedOn P ev m m' -> recordedOn Q ev m m'.
Proof.
  intros HPQ H k. destruct (H k) as [H1 H2]. split; intros HQ.
  - apply H1. by apply HPQ.
  - apply H2. by rewrite HPQ.
Qed.

Lemma recordedOn_none ev m : recordedOn (fun _ => False) ev m m.
Proof. intros k. split; [done|]. done. Qed.

Lemma recordedOn_appendItem ev cur m :
  recordedOn (fun k => k = cur) ev m (appendItem cur (itemOf ev) m).
Proof.
  intros k. rewrite lookup_appendItem. split.
  - intros ->. by rewrite decide_True.
  - intros Hne. by rewrite decide_False by congruence.
Qed.

Lemma expandLoop_spec ev e n : forall cur m r,
  expandLoop n ev e cur m = Some r ->
  recordedOn (fun k => occursAt (ev_Frequency ev) cur k /\ k <= e /\ endOk ev k) ev m r.
Proof.
  induction n as [|n IH]; intros cur m r H; [done|].
  rewrite expandLoop_S in H. unfold After, Before in H.
  destruct (Z.ltb_spec e cur) as [Hlt|Hge].
  { injection H as <-. eapply recordedOn_ext; [|apply recordedOn_none].
    intros k. split; [done|]. intros (Ho%occursAt_ge & ? & _). lia. }
  destruct (IsZero (ev_EndDate ev)) eqn:Hz; simpl in H.
  - apply IsZero_true in Hz.
    assert (Hend : forall k, endOk ev k) by (intros k; by left).
    fold (itemOf ev) in H.
    destruct (String.eqb_spec (ev_Frequency ev) "") as [Hf|Hf].
    + injection H as <-. eapply recordedOn_ext; [|apply recordedOn_appendItem].
      intros k. rewrite Hf. rewrite (occursAt_last "" cur (InvalidFrequency "")) by done.
      intuition (subst; eauto; try lia; try congruence).
    + destruct (GetNextDate cur (ev_Frequency ev)) as [next|err] eqn:Hn.
      * pose proof (GetNextDate_advance _ _ _ Hn) as Hadv. pose proof nsPerDay_pos.
        specialize (IH _ _ _ H). intros k. destruct (IH k) as [IH1 IH2].
        rewrite lookup_appendItem in IH1, IH2.
        rewrite (occursAt_step _ _ _ _ Hn).
        destruct (decide (cur = k)) as [<-|Hne].
        -- split; [|intros Hnot; exfalso; apply Hnot; auto]. intros _. apply IH2.
           intros (Ho%occursAt_ge & _). lia.
        -- split.
           ++ intros ([?|Ho] & ? & ?); [congruence|]. by apply IH1.
           ++ intros Hnot. apply IH2. intuition (subst; eauto; try lia; try congruence).
      * injection H as <-. eapply recordedOn_ext; [|apply recordedOn_appendItem].
        intros k. rewrite (occursAt_last _ _ _ _ Hn). intuition (subst; eauto; try lia; try congruence).
  - apply IsZero_false in Hz.
    destruct (Z.ltb_spec (ev_EndDate ev) cur) as [Hended|Hnotended].
    { injection H as <-. eapply recordedOn_ext; [|apply recordedOn_none].
      intros k. split; [done|]. intros (Ho%occursAt_ge & ? & [?|?]); [done|lia]. }
    assert (Hend : endOk ev cur) by (by right).
    fold (itemOf ev) in H.
    destruct (String.eqb_spec (ev_Frequency ev) "") as [Hf|Hf].
    + injection H as <-. eapply recordedOn_ext; [|apply recordedOn_appendItem].
      intros k. rewrite Hf. rewrite (occursAt_last "" cur (InvalidFrequency "")) by done.
      intuition (subst; eauto; try lia; try congruence).
    + destruct (GetNextDate cur (ev_Frequency ev)) as [next|err] eqn:Hn.
      * pose proof (GetNextDate_advance _ _ _ Hn) as Hadv. pose proof nsPerDay_pos.
        specialize (IH _ _ _ H). intros k. destruct (IH k) as [IH1 IH2].
        rewrite lookup_appendItem in IH1, IH2.
        rewrite (occursAt_step _ _ _ _ Hn).
        destruct (decide (cur = k)) as [<-|Hne].
        -- split; [|intros Hnot; exfalso; apply Hnot; auto]. intros _. apply IH2.
           intros (Ho%occursAt_ge & _). lia.
        -- split.
           ++ intros ([?|Ho] & ? & ?); [congruence|]. by apply IH1.
           ++ intros Hnot. apply IH2. intuition (subst; eauto; try lia; try congruence).
      * injection H as <-. eapply recordedOn_ext; [|apply recordedOn_appendItem].
        intros k. rewrite (occursAt_last _ _ _ _ Hn). intuition (subst; eauto; try lia; try congruence).
Qed.

(** The expansion loop started on [cur] records the event exactly on the
    occurrences of its recurrence from [cur] on that are neither after the
    window nor after its end date. *)
Lemma expand_spec ev e cur m :
  recordedOn (fun k => occursAt (ev_Frequency ev) cur k /\ k <= e /\ endOk ev k)
    ev m (expand ev e cur m).
Proof. eapply expandLoop_spec. apply expandLoop_expand. done. Qed.

(** * What the search loop of [GetFirstDate] returns *)

Lemma firstDateLoop_spec freq b n : forall cur r,
  firstDateLoop n freq b cur = Some r ->
  match r with
  | (d, true) =>
      occursAt freq cur d /\ b <= d
      /\ (forall k, occursAt freq d k <-> occursAt freq cur k /\ b <= k)
  | (_, false) =>
      IsValidFrequency freq = false /\ cur < b /\ forall k, occursAt freq cur k -> k < b
  end.
Proof.
  induction n as [|n IH]; intros cur r H; [done|].
  rewrite firstDateLoop_S in H. unfold Before in H.
  destruct (Z.ltb_spec cur b) as [Hlt|Hge].
  - destruct (GetNextDate cur freq) as [next|err] eqn:Hn.
    + pose proof (GetNextDate_advance _ _ _ Hn) as Hadv. pose proof nsPerDay_pos.
      specialize (IH _ _ H). destruct r as [d [|]].
      * destruct IH as (Ho & Hb & Hk). split; [|split; [done|]].
        -- apply (occursAt_step _ _ _ _ Hn). by right.
        -- intros k. rewrite Hk, (occursAt_step _ cur _ _ Hn). intuition lia.
      * destruct IH as (Hv & _ & Hk). split; [done|]. split; [done|].
        intros k [->|Ho]%(occursAt_step _ _ _ _ Hn); [done|]. by apply Hk.
    + injection H as <-. split; [|split; [done|]].
      * unfold GetNextDate in Hn. unfold IsValidFrequency.
        by destruct (frequencyDeltas !! freq).
      * intros k ->%(occursAt_last _ _ _ _ Hn). done.
  - injection H as <-. split; [apply occursAt_refl|]. split; [done|].
    intros k. split; [|tauto]. intros Ho. split; [done|]. apply occursAt_ge in Ho. lia.
Qed.

Lemma firstDateFrom_spec freq b cur :
  match firstDateFrom freq b cur with
  | (d, true) =>
      occursAt freq cur d /\ b <= d
      /\ (forall k, occursAt freq d k <-> occursAt freq cur k /\ b <= k)
  | (_, false) =>
      IsValidFrequency freq = false /\ cur < b /\ forall k, occursAt freq cur k -> k < b
  end.
Proof. eapply firstDateLoop_spec. apply firstDateLoop_firstDateFrom. done. Qed.

(** The five outcomes of [firstDateEarly], read off its definition. *)
Lemma firstDateEarly_cases ev b e :
  let start := ev_StartDate ev in
  let end_ := ev_EndDate ev in
  (e < start /\ firstDateEarly ev b e = Some (zeroTime, false))
  \/ (start <= e /\ end_ <> zeroTime /\ end_ < b
      /\ firstDateEarly ev b e = Some (zeroTime, false))
  \/ (start <= e /\ (end_ = zeroTime \/ b <= end_)
      /\ (ev_Frequency ev = "" \/ (end_ <> zeroTime /\ start = end_))
      /\ firstDateEarly ev b e = Some (start, true))
  \/ (start <= e /\ (end_ = zeroTime \/ b <= end_)
      /\ ev_Frequency ev = Daily /\ ~ (end_ <> zeroTime /\ start = end_)
      /\ firstDateEarly ev b e = Some (b, true))
  \/ (start <= e /\ (end_ = zeroTime \/ b <= end_)
      /\ ev_Frequency ev <> "" /\ ev_Frequency ev <> Daily
      /\ ~ (end_ <> zeroTime /\ start = end_)
      /\ firstDateEarly ev b e = None).
Proof.
  intros start end_. unfold firstDateEarly, Before, IsZero, Equal.
  fold start end_.
  destruct (Z.ltb_spec e start); [left; done|]. right.
  destruct (Z.eqb_spec end_ 0) as [Hz|Hz]; simpl.
  - right.
    destruct (String.eqb_spec (ev_Frequency ev) "") as [Hf|Hf]; simpl.
    { left. unfold zeroTime. tauto. }
    right. destruct (String.eqb_spec (ev_Frequency ev) Daily) as [Hd|Hd].
    { left. unfold zeroTime. tauto. }
    right. unfold zeroTime. tauto.
  - destruct (Z.ltb_spec end_ b); [left; unfold zeroTime; done|]. right.
    destruct (String.eqb_spec (ev_Frequency ev) "") as [Hf|Hf]; simpl.
    { left. unfold zeroTime. tauto. }
    destruct (Z.eqb_spec start end_) as [He|He].
    { left. unfold zeroTime. tauto. }
    right. destruct (String.eqb_spec (ev_Frequency ev) Daily) as [Hd|Hd].
    { left. unfold zeroTime. tauto. }
    right. unfold zeroTime. tauto.
Qed.

(** * What one round of the event loop records *)

Lemma processEvent_zero b e m ev :
  PrimFloat.eqb (ev_Value ev) 0 = true -> processEvent b e m ev = m.
Proof. intros H. unfold processEvent. by rewrite H. Qed.

Lemma processEvent_nonzero b e m ev :
  PrimFloat.eqb (ev_Value ev) 0 = false ->
  processEvent b e m ev
  = match GetFirstDate ev b e with
    | (cur, true) => expand ev e cur m
    | (_, false) => m
    end.
Proof.
  intros H. unfold processEvent. rewrite H.
  by destruct (GetFirstDate ev b e) as [cur [|]].
Qed.

(** An event without frequency is recorded once, on its start date, when
    that date is not after the window and the end date, if any, is neither
    before the window nor before the start date. *)
Lemma processEvent_one_time b e m ev :
  PrimFloat.eqb (ev_Value ev) 0 = false ->
  ev_Frequency ev = "" ->
  recordedOn (fun k => k = ev_StartDate ev /\ ev_StartDate ev <= e
                       /\ (ev_EndDate ev = zeroTime
                           \/ (b <= ev_EndDate ev /\ ev_StartDate ev <= ev_EndDate ev)))
    ev m (processEvent b e m ev).
Proof.
  intros Hv Hf. rewrite processEvent_nonzero by done. unfold GetFirstDate.
  assert (Hocc : forall k, occursAt (ev_Frequency ev) (ev_StartDate ev) k <-> k = ev_StartDate ev).
  { intros k. rewrite Hf. by apply (occursAt_last "" _ (InvalidFrequency "")). }
  destruct (firstDateEarly_cases ev b e)
    as [[? ->]|[(? & ? & ? & ->)|[(? & ? & ? & ->)|[(? & ? & Hd & _)|(? & ? & ? & _)]]]];
    [| | | by rewrite Hf in Hd | done].
  - eapply recordedOn_ext; [|apply recordedOn_none]. intros k. split; [done|]. lia.
  - eapply recordedOn_ext; [|apply recordedOn_none]. intros k. split; [done|].
    unfold zeroTime in *. lia.
  - eapply recordedOn_ext; [|apply expand_spec]. intros k. cbv beta. rewrite Hocc. unfold endOk.
    split; [intros (-> & ? & ?)|intros (-> & ? & ?)]; (split; [done|]); split; try done;
      unfold zeroTime in *; lia.
Qed.


Lemma occursAt_Daily b k :
  occursAt Daily b k <-> exists n : nat, k = b + Z.of_nat n * nsPerDay.
Proof.
  assert (Hn : forall t, GetNextDate t Daily = Ok (t + nsPerDay)).
  { intros t. change (GetNextDate t Daily) with (Ok (AddDate t 0 0 1)).
    by rewrite AddDate_days, Z.mul_1_l. }
  assert (H : forall n t, nthOccurrence Daily t n = Some (t + Z.of_nat n * nsPerDay)).
  { induction n as [|n IH]; intros t; simpl nthOccurrence.
    - f_equal. lia.
    - rewrite Hn, IH. f_equal. lia. }
  split.
  - intros [n Ho]. exists n. rewrite H in Ho. congruence.
  - intros [n ->]. exists n. apply H.
Qed.

(** A daily event is recorded on every day counted from the beginning of
    the window, not from its start date. *)
Lemma processEvent_daily b e m ev :
  PrimFloat.eqb (ev_Value ev) 0 = false ->
  ev_Frequency ev = Daily ->
  ~ (ev_EndDate ev <> zeroTime /\ ev_StartDate ev = ev_EndDate ev) ->
  recordedOn (fun k => ev_StartDate ev <= e
                       /\ (exists n : nat, k = b + Z.of_nat n * nsPerDay)
                       /\ k <= e /\ endOk ev k)
    ev m (processEvent b e m ev).
Proof.
  intros Hv Hf Hse. rewrite processEvent_nonzero by done. unfold GetFirstDate.
  destruct (firstDateEarly_cases ev b e)
    as [[? ->]|[(? & ? & ? & ->)|[(? & ? & [Hd|?] & _)|[(? & ? & ? & _ & ->)|(? & ? & _ & ? & _)]]]];
    try done.
  - eapply recordedOn_ext; [|apply recordedOn_none]. intros k. split; [done|]. lia.
  - eapply recordedOn_ext; [|apply recordedOn_none]. intros k. split; [done|].
    unfold endOk. pose proof nsPerDay_pos. intros (_ & [n ->] & _ & [?|?]); [done|nia].
  - by rewrite Hf in Hd.
  - eapply recordedOn_ext; [|apply expand_spec]. intros k. cbv beta.
    rewrite Hf, occursAt_Daily. tauto.
Qed.

(** Whether [k] is an occurrence is decided by a bounded search: the
    [n]-th occurrence is at least [n] days after the start. *)
Lemma occursAt_decidable freq cur k : occursAt freq cur k \/ ~ occursAt freq cur k.
Proof.
  assert (Hb : forall N : nat,
             (exists n, (n < N)%nat /\ nthOccurrence freq cur n = Some k)
             \/ ~ (exists n, (n < N)%nat /\ nthOccurrence freq cur n = Some k)).
  { induction N as [|N [IH|IH]].
    - right. intros (n & ? & _). lia.
    - left. destruct IH as (n & ? & ?). exists n. split; [lia|done].
    - destruct (decide (nthOccurrence freq cur N = Some k)) as [Heq|Hne].
      + left. exists N. split; [lia|done].
      + right. intros (n & Hn & Ho). destruct (decide (n = N)) as [->|]; [done|].
        apply IH. exists n. split; [lia|done]. }
  destruct (Hb (S (Z.to_nat ((k - cur) / nsPerDay)))) as [(n & _ & Ho)|Hno].
  - left. by exists n.
  - right. intros [n Ho]. apply Hno. exists n. split; [|done].
    apply nthOccurrence_ge in Ho. pose proof nsPerDay_pos.
    assert (Z.of_nat n <= (k - cur) / nsPerDay) by (apply Z.div_le_lower_bound; lia).
    lia.
Qed.

Lemma endOk_decidable ev k : endOk ev k \/ ~ endOk ev k.
Proof.
  unfold endOk. destruct (decide (ev_EndDate ev = zeroTime)); [tauto|].
  destruct (decide (k <= ev_EndDate ev)); tauto.
Qed.

(** Whatever the event, its round appends its item to the slices of a set
    of dates that does not depend on the state of the map. *)
Lemma processEvent_recorded b e ev :
  exists P, (forall k, P k \/ ~ P k)
            /\ forall m, recordedOn P ev m (processEvent b e m ev).
Proof.
  destruct (PrimFloat.eqb (ev_Value ev) 0) eqn:Hv.
  - exists (fun _ => False). split; [tauto|]. intros m. rewrite processEvent_zero by done.
    apply recordedOn_none.
  - destruct (GetFirstDate ev b e) as [cur [|]] eqn:Hg.
    + exists (fun k => occursAt (ev_Frequency ev) cur k /\ k <= e /\ endOk ev k).
      split.
      * intros k. destruct (occursAt_decidable (ev_Frequency ev) cur k); [|tauto].
        destruct (endOk_decidable ev k); [|tauto].
        destruct (decide (k <= e)); tauto.
      * intros m. rewrite processEvent_nonzero, Hg by done. apply expand_spec.
    + exists (fun _ => False). split; [tauto|]. intros m.
      rewrite processEvent_nonzero, Hg by done. apply recordedOn_none.
Qed.

(** The round of an event appends its item exactly to the slices of the
    dates on which the event fires. *)
Lemma processEvent_firesOn b e ev m :
  recordedOn (fun k => firesOn b e k ev = true) ev m (processEvent b e m ev).
Proof.
  destruct (processEvent_recorded b e ev) as (P & Hdec & HP).
  eapply recordedOn_ext; [|apply HP]. intros k.
  unfold firesOn. rewrite bool_decide_eq_true.
  destruct (HP ∅ k) as [H1 H2]. rewrite lookup_empty in H1, H2. split.
  - intros HPk. rewrite H1 by done. eauto.
  - intros [x Hx]. destruct (Hdec k) as [HPk|HPk]; [done|].
    rewrite H2 in Hx; done.
Qed.

(** * Aggregation *)

Lemma cfMapOf_snoc events ev b e :
  cfMapOf (events ++ [ev]) b e = processEvent b e (cfMapOf events b e) ev.
Proof. unfold cfMapOf. by rewrite fold_left_app. Qed.

(** The slice of a date holds the items of the events that fire on it, in
    the order of the event list; a date on which no event fires has no
    slice. *)
Lemma cfMapOf_lookup events b e k :
  cfMapOf events b e !! k
  = match itemOf <$> filter (fun ev => firesOn b e k ev = true) events with
    | [] => None
    | items => Some items
    end.
Proof.
  induction events as [|ev events IH] using rev_ind.
  - unfold cfMapOf. simpl. by rewrite lookup_empty.
  - rewrite cfMapOf_snoc, filter_app, fmap_app.
    destruct (processEvent_firesOn b e ev (cfMapOf events b e) k) as [H1 H2].
    rewrite filter_cons, filter_nil.
    destruct (decide (firesOn b e k ev = true)) as [Hf|Hf].
    + rewrite H1, IH by done. simpl.
      by destruct (itemOf <$> filter _ events).
    + rewrite H2, IH by done. simpl. by rewrite app_nil_r.
Qed.

Lemma firesOn_spec b e k ev :
  firesOn b e k ev = true <->
  PrimFloat.eqb (ev_Value ev) 0 = false
  /\ exists cur, GetFirstDate ev b e = (cur, true)
                 /\ occursAt (ev_Frequency ev) cur k /\ k <= e /\ endOk ev k.
Proof.
  unfold firesOn. rewrite bool_decide_eq_true.
  destruct (PrimFloat.eqb (ev_Value ev) 0) eqn:Hv.
  - rewrite processEvent_zero, lookup_empty by done. split; [by intros [? ?]|by intros [? _]].
  - rewrite processEvent_nonzero by done.
    destruct (GetFirstDate ev b e) as [cur [|]].
    + destruct (expand_spec ev e cur ∅ k) as [H1 H2]. rewrite lookup_empty in H1, H2. split.
      * intros [x Hx]. split; [done|]. exists cur. split; [done|].
        destruct (occursAt_decidable (ev_Frequency ev) cur k); [|rewrite H2 in Hx; [done|tauto]].
        destruct (endOk_decidable ev k); [|rewrite H2 in Hx; [done|tauto]].
        destruct (decide (k <= e)); [done|rewrite H2 in Hx; [done|tauto]].
      * intros (_ & cur' & [= <-] & HP). rewrite H1 by done. eauto.
    + rewrite lookup_empty. split; [by intros [? ?]|]. by intros (_ & cur' & [=] & _).
Qed.

(** * Where [GetFirstDate] lands *)

Lemma GetFirstDate_lower ev b e cur :
  GetFirstDate ev b e = (cur, true) ->
  b <= cur \/ (ev_Frequency ev = "" /\ cur = ev_StartDate ev /\ cur < b).
Proof.
  unfold GetFirstDate.
  destruct (firstDateEarly_cases ev b e)
    as [[? ->]|[(? & ? & ? & ->)|[(? & ? & Hc & ->)|[(? & ? & ? & _ & ->)|(? & ? & _ & _ & _ & ->)]]]];
    try done.
  - intros [= <-]. destruct Hc as [Hf|[Hz Heq]].
    + destruct (decide (b <= ev_StartDate ev)); [by left|right]. split; [done|]. split; [done|lia].
    + left. unfold zeroTime in *. lia.
  - intros [= <-]. left. lia.
  - pose proof (firstDateFrom_spec (ev_Frequency ev) b (ev_StartDate ev)) as Hs.
    intros Heq. rewrite Heq in Hs. left. tauto.
Qed.

(** Every date on which an event fires is in the window, except the start
    date of an event without frequency that starts before the window. *)
Lemma firesOn_window b e k ev :
  firesOn b e k ev = true ->
  k <= e /\ (b <= k \/ (ev_Frequency ev = "" /\ k = ev_StartDate ev /\ k < b)).
Proof.
  intros (Hv & cur & Hg & Ho & He & _)%firesOn_spec. split; [done|].
  destruct (GetFirstDate_lower _ _ _ _ Hg) as [Hb|(Hf & -> & Hlt)].
  - left. apply occursAt_ge in Ho. lia.
  - right. rewrite Hf in Ho.
    apply (occursAt_last "" _ (InvalidFrequency "")) in Ho; [|done]. by subst k.
Qed.

Lemma cfMapOf_fired events b e k :
  is_Some (cfMapOf events b e !! k) -> exists ev, ev ∈ events /\ firesOn b e k ev = true.
Proof.
  rewrite cfMapOf_lookup.
  destruct (filter _ events) as [|ev l] eqn:Hfl; simpl; [by intros [? ?]|]. intros _.
  assert (ev ∈ filter (fun ev => firesOn b e k ev = true) events) as Hin
    by (rewrite Hfl; left).
  apply list_elem_of_filter in Hin as [? ?]. eauto.
Qed.

(** * The recurrence calculator *)

Lemma frequencyDeltas_None freq :
  frequencyDeltas !! freq = None <-> freq ∉ [Daily; Weekly; Monthly; Quarterly; SemiAnnual; Annual].
Proof.
  unfold frequencyDeltas. rewrite <- not_elem_of_list_to_map. reflexivity.
Qed.

(** X1.  [IsValidFrequency] holds of the six tags and of no other string, the
    empty string included; [GetNextDate] succeeds on exactly these and fails
    with [InvalidFrequency] on every other, whatever the date. *)
Theorem frequency_validity freq t :
  (IsValidFrequency freq = true
   <-> freq ∈ [Daily; Weekly; Monthly; Quarterly; SemiAnnual; Annual])
  /\ (IsValidFrequency freq = true <-> exists next, GetNextDate t freq = Ok next)
  /\ (IsValidFrequency freq = false <-> GetNextDate t freq = Err (InvalidFrequency freq))
  /\ IsValidFrequency "" = false.
Proof.
  unfold IsValidFrequency, GetNextDate.
  destruct (frequencyDeltas !! freq) as [delta|] eqn:Hd.
  - assert (Hin : freq ∈ [Daily; Weekly; Monthly; Quarterly; SemiAnnual; Annual]).
    { destruct (decide (freq ∈ [Daily; Weekly; Monthly; Quarterly; SemiAnnual; Annual]))
        as [|Hn]; [done|]. apply frequencyDeltas_None in Hn. congruence. }
    repeat split; try done; eauto.
  - assert (Hn : freq ∉ [Daily; Weekly; Monthly; Quarterly; SemiAnnual; Annual])
      by (by apply frequencyDeltas_None).
    repeat split; try done. by intros [? ?].
Qed.

Lemma AddDate_same_day t y m d years months :
  civil t = (y, m, d) ->
  0 <= months + 12 * years ->
  let target := normMonth y (m + (months + 12 * years)) in
  d <= daysIn target.1 target.2 ->
  civil (AddDate t years months 0) = (target.1, target.2, d)
  /\ AddDate t years months 0 mod nsPerDay = t mod nsPerDay.
Proof.
  intros Hc Hk target Hd.
  rewrite (AddDate_spec _ _ _ _ _ _ _ Hc).
  apply civil_spec in Hc as (Ht & Hm & Hdr).
  pose proof (Z.mod_pos_bound t nsPerDay nsPerDay_pos) as Htod.
  replace (m + months + 12 * years) with (m + (months + 12 * years)) by lia.
  replace (monthStart y (m + (months + 12 * years)) + (d + 0 - 1))
    with (civilDays target.1 target.2 d).
  2:{ rewrite civilDays_day. unfold monthStart, target, normMonth. simpl. lia. }
  rewrite civil_of_days, mod_of_days by done.
  split; [|done]. apply civilDays_absDate; [apply normMonth_range|lia].
Qed.

Lemma GetNextDate_months t freq k :
  (freq, k) ∈ [(Monthly, 1); (Quarterly, 3); (SemiAnnual, 6); (Annual, 12)] ->
  exists years months, k = months + 12 * years /\ 0 <= months + 12 * years
    /\ GetNextDate t freq = Ok (AddDate t years months 0).
Proof.
  intros Hin. rewrite !elem_of_cons, elem_of_nil in Hin.
  destruct Hin as [Hin|[Hin|[Hin|[Hin|[]]]]]; injection Hin as -> ->.
  - by exists 0, 1.
  - by exists 0, 3.
  - by exists 0, 6.
  - by exists 1, 0.
Qed.

(** X3.  Advancing by 1, 3, 6 or 12 months a time whose day of the month exists
    in the target month keeps the day of the month and the time of day. *)
Theorem month_advance_keeps_day t freq k y m d :
  (freq, k) ∈ [(Monthly, 1); (Quarterly, 3); (SemiAnnual, 6); (Annual, 12)] ->
  civil t = (y, m, d) ->
  d <= daysIn (normMonth y (m + k)).1 (normMonth y (m + k)).2 ->
  exists next,
    GetNextDate t freq = Ok next
    /\ civil next = ((normMonth y (m + k)).1, (normMonth y (m + k)).2, d)
    /\ Clock next = Clock t /\ Nanosecond next = Nanosecond t.
Proof.
  intros Hin Hc Hd.
  destruct (GetNextDate_months t freq k Hin) as (years & months & -> & Hk & Hn).
  destruct (AddDate_same_day t y m d years months Hc Hk Hd) as [H1 H2].
  exists (AddDate t years months 0). split; [done|]. split; [done|]. by apply Clock_mod.
Qed.

Lemma month_advance_keeps_day_witness :
  exists next,
    GetNextDate (Date 2024 6 15 8 0 0 0) SemiAnnual = Ok next
    /\ civil next = (2024, 12, 15)
    /\ Clock next = (8, 0, 0) /\ Nanosecond next = 0.
Proof.
  apply (month_advance_keeps_day (Date 2024 6 15 8 0 0 0) SemiAnnual 6 2024 6 15);
    [ set_solver | by vm_compute | by vm_compute ].
Defined.

(** X2.  The daily and weekly advancements add exactly 1 and 7 days; an
    advancement by [k] months adds between [28 k] and [31 k] days; every
    advancement keeps the time of day. *)
Theorem GetNextDate_increments t :
  GetNextDate t Daily = Ok (t + nsPerDay)
  /\ GetNextDate t Weekly = Ok (t + 7 * nsPerDay)
  /\ (forall freq k,
        (freq, k) ∈ [(Monthly, 1); (Quarterly, 3); (SemiAnnual, 6); (Annual, 12)] ->
        exists next, GetNextDate t freq = Ok next
                     /\ t + 28 * k * nsPerDay <= next <= t + 31 * k * nsPerDay)
  /\ (forall freq next, GetNextDate t freq = Ok next -> next mod nsPerDay = t mod nsPerDay).
Proof.
  assert (Hd : forall k, AddDate t 0 0 k mod nsPerDay = t mod nsPerDay).
  { intros k. rewrite AddDate_days.
    unfold nsPerDay, nsPerHour, nsPerMinute, nsPerSecond. Z.div_mod_to_equations. lia. }
  assert (Hm : forall years months, AddDate t years months 0 mod nsPerDay = t mod nsPerDay).
  { intros years months. destruct (civil t) as [[y m] d] eqn:Hc.
    rewrite (AddDate_spec _ _ _ _ _ _ _ Hc).
    apply mod_of_days, Z.mod_pos_bound, nsPerDay_pos. }
  split; [|split; [|split]].
  - change (GetNextDate t Daily) with (Ok (AddDate t 0 0 1)).
    by rewrite AddDate_days, Z.mul_1_l.
  - change (GetNextDate t Weekly) with (Ok (AddDate t 0 0 7)).
    by rewrite AddDate_days.
  - intros freq k Hin.
    destruct (GetNextDate_months t freq k Hin) as (years & months & -> & Hk & Hn).
    eexists. split; [done|]. apply AddDate_months. done.
  - intros freq next. unfold GetNextDate.
    destruct (frequencyDeltas !! freq) as [delta|] eqn:Hl; [|done].
    intros [= <-]. apply frequencyDeltas_Some in Hl. unfold frequencyTable in Hl.
    rewrite !elem_of_cons, elem_of_nil in Hl.
    destruct Hl as [Hl|[Hl|[Hl|[Hl|[Hl|[Hl|[]]]]]]]; injection Hl as -> ->; auto.
Qed.

(** * The first-occurrence resolver *)

(** X4.  [GetFirstDate] reports no occurrence in exactly three cases: the event
    starts after the window; it has an end date before the window; or its
    frequency is a non-empty string that is not a recognised tag, its end
    date is not its start date, and it starts before the window.  The date
    it then returns is the zero time. *)
Theorem GetFirstDate_fails_iff ev b e :
  ((GetFirstDate ev b e).2 = false <->
   e < ev_StartDate ev
   \/ (ev_EndDate ev <> zeroTime /\ ev_EndDate ev < b)
   \/ (IsValidFrequency (ev_Frequency ev) = false /\ ev_Frequency ev <> ""
       /\ ~ (ev_EndDate ev <> zeroTime /\ ev_StartDate ev = ev_EndDate ev)
       /\ ev_StartDate ev < b))
  /\ ((GetFirstDate ev b e).2 = false -> (GetFirstDate ev b e).1 = zeroTime).
Proof.
  unfold GetFirstDate.
  destruct (firstDateEarly_cases ev b e)
    as [[? ->]|[(? & ? & ? & ->)|[(? & ? & Hc & ->)|[(? & ? & Hd & ? & ->)|(? & ? & ? & ? & ? & ->)]]]];
    simpl.
  - split; [|done]. split; [by left|done].
  - split; [|done]. split; [right; by left|done].
  - split; [|done]. split; [done|].
    intros [?|[[? ?]|(? & ? & ? & ?)]]; [lia|unfold zeroTime in *; lia|].
    destruct Hc; [done|tauto].
  - split; [|done]. split; [done|].
    intros [?|[[? ?]|(Hv & ? & ? & ?)]]; [lia|unfold zeroTime in *; lia|].
    by rewrite Hd in Hv.
  - pose proof (firstDateFrom_spec (ev_Frequency ev) b (ev_StartDate ev)) as Hs.
    pose proof (firstDateFrom_unfold (ev_Frequency ev) b (ev_StartDate ev)) as Hu.
    destruct (firstDateFrom _ _ _) as [d [|]]; simpl.
    + split; [|done]. split; [done|].
      intros [?|[[? ?]|(Hv & ? & ? & Hlt)]]; [lia|unfold zeroTime in *; lia|].
      apply Before_lt in Hlt. rewrite Hlt in Hu.
      unfold IsValidFrequency in Hv. unfold GetNextDate in Hu.
      destruct (frequencyDeltas !! ev_Frequency ev); [done|]. congruence.
    + destruct Hs as (Hv & Hlt & _). split; [split; [intros _; right; right; done|done]|].
      intros _. apply Before_lt in Hlt. rewrite Hlt in Hu.
      unfold IsValidFrequency in Hv. unfold GetNextDate in Hu.
      destruct (frequencyDeltas !! ev_Frequency ev); [done|]. congruence.
Qed.

(** X5.  For an event with a frequency other than daily whose end date is not
    its start date, a date returned by [GetFirstDate] is the earliest
    occurrence of the recurrence that is not before the window. *)
Theorem GetFirstDate_first_occurrence ev b e d :
  ev_Frequency ev <> "" ->
  ev_Frequency ev <> Daily ->
  ~ (ev_EndDate ev <> zeroTime /\ ev_StartDate ev = ev_EndDate ev) ->
  GetFirstDate ev b e = (d, true) ->
  occursAt (ev_Frequency ev) (ev_StartDate ev) d
  /\ b <= d
  /\ forall k, occursAt (ev_Frequency ev) (ev_StartDate ev) k -> b <= k -> d <= k.
Proof.
  intros Hf Hd Hse. unfold GetFirstDate.
  destruct (firstDateEarly_cases ev b e)
    as [[? ->]|[(? & ? & ? & ->)|[(? & ? & [?|?] & _)|[(? & ? & ? & _)|(? & ? & _ & _ & _ & ->)]]]];
    try done.
  pose proof (firstDateFrom_spec (ev_Frequency ev) b (ev_StartDate ev)) as Hs.
  intros Heq. rewrite Heq in Hs. destruct Hs as (Ho & Hb & Hk).
  split; [done|]. split; [done|]. intros k Hok Hbk.
  apply (occursAt_ge (ev_Frequency ev)). apply Hk. done.
Qed.

Lemma GetFirstDate_first_occurrence_witness :
  occursAt Monthly (Day 2024 6 15) (Day 2025 1 15)
  /\ Day 2025 1 1 <= Day 2025 1 15
  /\ forall k, occursAt Monthly (Day 2024 6 15) k -> Day 2025 1 1 <= k -> Day 2025 1 15 <= k.
Proof.
  apply (GetFirstDate_first_occurrence
           (mkEvent "Fee" (Day 2024 6 15) zeroTime Monthly 100 "")
           (Day 2025 1 1) (Day 2025 12 31) (Day 2025 1 15));
    [ by vm_compute | by vm_compute | intros [H _]; exact (H eq_refl) | by vm_compute ].
Defined.

(** * When an event fires *)

Lemma firesOn_of_recordedOn b e ev (P : Z -> Prop) :
  (forall k, P k \/ ~ P k) ->
  recordedOn P ev ∅ (processEvent b e ∅ ev) ->
  forall k, firesOn b e k ev = true <-> P k.
Proof.
  intros Hdec HP k. unfold firesOn. rewrite bool_decide_eq_true.
  destruct (HP k) as [H1 H2]. rewrite lookup_empty in H1, H2. split.
  - intros [x Hx]. destruct (Hdec k) as [|Hn]; [done|]. rewrite H2 in Hx; done.
  - intros HPk. rewrite H1 by done. eauto.
Qed.

(** An event of value zero never fires. *)
Lemma firesOn_zero b e k ev :
  PrimFloat.eqb (ev_Value ev) 0 = true -> firesOn b e k ev = false.
Proof.
  intros Hv. unfold firesOn. rewrite processEvent_zero, lookup_empty by done.
  apply bool_decide_eq_false. by intros [? ?].
Qed.

(** X6.  An event without frequency and of nonzero value fires on its start
    date and on no other date, provided that the start date is not after
    the window and that its end date, if it has one, is neither before the
    window nor before the start date.  The beginning of the window is not
    compared with the start date. *)
Theorem one_time_event_fires_on_start b e k ev :
  PrimFloat.eqb (ev_Value ev) 0 = false ->
  ev_Frequency ev = "" ->
  firesOn b e k ev = true <->
  k = ev_StartDate ev /\ ev_StartDate ev <= e
  /\ (ev_EndDate ev = zeroTime \/ (b <= ev_EndDate ev /\ ev_StartDate ev <= ev_EndDate ev)).
Proof.
  intros Hv Hf. revert k. apply firesOn_of_recordedOn; [|by apply processEvent_one_time].
  intros k. destruct (decide (k = ev_StartDate ev)); [|tauto].
  destruct (decide (ev_StartDate ev <= e)); [|tauto].
  destruct (decide (ev_EndDate ev = zeroTime)); [tauto|].
  destruct (decide (b <= ev_EndDate ev)); [|tauto].
  destruct (decide (ev_StartDate ev <= ev_EndDate ev)); tauto.
Qed.

Lemma one_time_event_fires_on_start_witness :
  firesOn (Day 2025 1 1) (Day 2025 12 31) (Day 2024 6 1)
    (mkEvent "Deposit" (Day 2024 6 1) (Day 2025 2 1) "" 100 "") = true <->
  Day 2024 6 1 = Day 2024 6 1 /\ Day 2024 6 1 <= Day 2025 12 31
  /\ (Day 2025 2 1 = zeroTime \/ (Day 2025 1 1 <= Day 2025 2 1 /\ Day 2024 6 1 <= Day 2025 2 1)).
Proof.
  apply (one_time_event_fires_on_start (Day 2025 1 1) (Day 2025 12 31) (Day 2024 6 1)
           (mkEvent "Deposit" (Day 2024 6 1) (Day 2025 2 1) "" 100 ""));
    reflexivity.
Defined.






(** X9.  A daily event of nonzero value whose end date is not its start date
    fires on the beginning of the window and every 24 hours after it, up to
    the end of the window and of the event, as soon as its start date is not
    after the window and its end date not before it: the dates do not
    depend on where the start date lies, and may precede it. *)
Theorem daily_event_fires_from_window_begin b e k ev :
  PrimFloat.eqb (ev_Value ev) 0 = false ->
  ev_Frequency ev = Daily ->
  ~ (ev_EndDate ev <> zeroTime /\ ev_StartDate ev = ev_EndDate ev) ->
  firesOn b e k ev = true <->
  ev_StartDate ev <= e
  /\ (exists n : nat, k = b + Z.of_nat n * nsPerDay)
  /\ k <= e /\ endOk ev k.
Proof.
  intros Hv Hf Hse. revert k.
  apply firesOn_of_recordedOn; [|by apply processEvent_daily].
  intros k. destruct (decide (ev_StartDate ev <= e)); [|tauto].
  destruct (endOk_decidable ev k); [|tauto].
  destruct (decide (k <= e)); [|tauto].
  destruct (occursAt_decidable Daily b k) as [Ho|Hn].
  - left. apply occursAt_Daily in Ho. tauto.
  - right. rewrite <- occursAt_Daily. tauto.
Qed.

Lemma daily_event_fires_from_window_begin_witness :
  firesOn (Day 2025 1 1) (Day 2025 12 31) (Day 2025 1 2)
    (mkEvent "Coffee" (Day 2025 3 10) zeroTime Daily (-4) "") = true <->
  Day 2025 3 10 <= Day 2025 12 31
  /\ (exists n : nat, Day 2025 1 2 = Day 2025 1 1 + Z.of_nat n * nsPerDay)
  /\ Day 2025 1 2 <= Day 2025 12 31
  /\ endOk (mkEvent "Coffee" (Day 2025 3 10) zeroTime Daily (-4) "") (Day 2025 1 2).
Proof.
  apply (daily_event_fires_from_window_begin (Day 2025 1 1) (Day 2025 12 31) (Day 2025 1 2)
           (mkEvent "Coffee" (Day 2025 3 10) zeroTime Daily (-4) ""));
    [ reflexivity | reflexivity | intros [H _]; exact (H eq_refl) ].
Defined.

(** * The entries of a run *)



(** X11.  No entry is dated after the end of the window.  An entry dated before
    the beginning of the window is dated on the start date of an event
    without frequency and of nonzero value; if every such event starts in or
    after the window's beginning, all entries are dated within the
    window. *)
Theorem entries_within_window_or_early_one_time events b e l :
  GenerateCashflows events b e = Ok l ->
  (forall cf, cf ∈ l ->
     cf_Date cf <= e
     /\ (b <= cf_Date cf
         \/ exists ev, ev ∈ events /\ ev_Frequency ev = ""
                       /\ PrimFloat.eqb (ev_Value ev) 0 = false
                       /\ ev_StartDate ev = cf_Date cf /\ cf_Date cf < b))
  /\ ((forall ev, ev ∈ events -> ev_Frequency ev = "" ->
                  PrimFloat.eqb (ev_Value ev) 0 = false -> b <= ev_StartDate ev) ->
      forall cf, cf ∈ l -> b <= cf_Date cf <= e).
Proof.
  intros H.
  assert (H1 : forall cf, cf ∈ l ->
     cf_Date cf <= e
     /\ (b <= cf_Date cf
         \/ exists ev, ev ∈ events /\ ev_Frequency ev = ""
                       /\ PrimFloat.eqb (ev_Value ev) 0 = false
                       /\ ev_StartDate ev = cf_Date cf /\ cf_Date cf < b)).
  { intros cf (items & Hl & _)%(elem_of_GenerateCashflows _ _ _ _ _ H).
    destruct (cfMapOf_fired events b e (cf_Date cf)) as (ev & Hin & Hf); [by eexists|].
    pose proof (firesOn_window _ _ _ _ Hf) as [He Hb]. split; [done|].
    destruct Hb as [Hb|(Hfreq & Hs & Hlt)]; [by left|right].
    exists ev. repeat split; try done.
    apply firesOn_spec in Hf. tauto. }
  split; [done|]. intros Hall cf Hcf.
  destruct (H1 cf Hcf) as [He [Hb|(ev & Hin & Hf & Hv & Hs & Hlt)]]; [lia|].
  specialize (Hall ev Hin Hf Hv). lia.
Qed.

Lemma entries_within_window_or_early_one_time_witness :
  (forall cf, cf ∈ [mkCashflow (Day 2024 6 1) 100 0 [mkItem "Deposit" 100]] ->
     cf_Date cf <= Day 2025 12 31
     /\ (Day 2025 1 1 <= cf_Date cf
         \/ exists ev, ev ∈ [mkEvent "Deposit" (Day 2024 6 1) zeroTime "" 100 ""]
                       /\ ev_Frequency ev = ""
                       /\ PrimFloat.eqb (ev_Value ev) 0 = false
                       /\ ev_StartDate ev = cf_Date cf /\ cf_Date cf < Day 2025 1 1))
  /\ ((forall ev, ev ∈ [mkEvent "Deposit" (Day 2024 6 1) zeroTime "" 100 ""] ->
                  ev_Frequency ev = "" ->
                  PrimFloat.eqb (ev_Value ev) 0 = false -> Day 2025 1 1 <= ev_StartDate ev) ->
      forall cf, cf ∈ [mkCashflow (Day 2024 6 1) 100 0 [mkItem "Deposit" 100]] ->
                 Day 2025 1 1 <= cf_Date cf <= Day 2025 12 31).
Proof.
  apply (entries_within_window_or_early_one_time
           [mkEvent "Deposit" (Day 2024 6 1) zeroTime "" 100 ""]
           (Day 2025 1 1) (Day 2025 12 31)).
  by vm_compute.
Defined.

(** X12.  Events of value zero have no influence on the result. *)
Theorem zero_valued_events_are_ignored events b e :
  GenerateCashflows (filter (fun ev => PrimFloat.eqb (ev_Value ev) 0 = false) events) b e
  = GenerateCashflows events b e.
Proof.
  assert (H : forall m : gmap Z (list CashflowItem),
             fold_left (processEvent b e)
               (filter (fun ev => PrimFloat.eqb (ev_Value ev) 0 = false) events) m
             = fold_left (processEvent b e) events m).
  { induction events as [|ev events IH]; intros m; [done|].
    rewrite filter_cons. simpl.
    destruct (decide (PrimFloat.eqb (ev_Value ev) 0 = false)) as [Hv|Hv].
    - simpl. apply IH.
    - rewrite IH, (processEvent_zero b e m ev); [done|].
      by destruct (PrimFloat.eqb (ev_Value ev) 0). }
  unfold GenerateCashflows. by rewrite H.
Qed.



(** * The ledger *)

Lemma BalanceFromCashflows_eq initialBalance simStart cashflows :
  BalanceFromCashflows initialBalance simStart cashflows
  = {| cf_Date := simStart; cf_Cashflow := 0; cf_Balance := initialBalance; cf_Items := [] |}
    :: imap (fun i cf => setBalance cf
               (fold_left PrimFloat.add (cf_Cashflow <$> take (S i) cashflows) initialBalance))
         cashflows.
Proof. unfold BalanceFromCashflows. by rewrite fold_balanceStep. Qed.


Lemma running_sum_snoc (cashflows : list Cashflow) i cf b :
  cashflows !! i = Some cf ->
  fold_left PrimFloat.add (cf_Cashflow <$> take (S i) cashflows) b
  = PrimFloat.add (fold_left PrimFloat.add (cf_Cashflow <$> take i cashflows) b) (cf_Cashflow cf).
Proof.
  intros H. rewrite (take_S_r _ _ _ H), fmap_app, fold_left_app. done.
Qed.

(** X14.  In the ledger, the balance of every row after the first is the balance
    of the row before it plus the row's own cashflow; the first balance is
    the initial balance, and the last one is the initial balance plus all
    cashflows, added from left to right. *)
Theorem ledger_balances_chain initialBalance simStart cashflows :
  let ledger := BalanceFromCashflows initialBalance simStart cashflows in
  (forall i row row', ledger !! i = Some row -> ledger !! S i = Some row' ->
     cf_Balance row' = PrimFloat.add (cf_Balance row) (cf_Cashflow row'))
  /\ (cf_Balance <$> head ledger) = Some initialBalance
  /\ (cf_Balance <$> last ledger)
     = Some (fold_left PrimFloat.add (cf_Cashflow <$> cashflows) initialBalance).
Proof.
  intros ledger. unfold ledger. rewrite BalanceFromCashflows_eq. split; [|split].
  - intros i row row' Hi HSi. simpl in HSi.
    rewrite list_lookup_imap in HSi.
    destruct (cashflows !! i) as [cf|] eqn:Hcf; [|done]. injection HSi as <-. simpl.
    rewrite (running_sum_snoc _ _ _ _ Hcf).
    destruct i as [|j].
    + injection Hi as <-. done.
    + simpl in Hi. rewrite list_lookup_imap in Hi.
      destruct (cashflows !! j) as [cf'|] eqn:Hcf'; [|done]. injection Hi as <-. done.
  - done.
  - destruct cashflows as [|cf cashflows _] using rev_ind; [done|].
    rewrite imap_app. simpl. rewrite app_comm_cons, last_snoc. simpl.
    replace (S (length cashflows + 0)) with (length (cashflows ++ [cf]))
      by (rewrite length_app; simpl; lia).
    by rewrite firstn_all.
Qed.







(** * The simulation endpoint *)


(** * Occurrences in closed form *)

(** X17.  The occurrences of a daily recurrence are its start plus whole days,
    those of a weekly recurrence its start plus whole weeks. *)
Theorem fixed_step_occurrences start n :
  nthOccurrence Daily start n = Some (start + Z.of_nat n * nsPerDay)
  /\ nthOccurrence Weekly start n = Some (start + Z.of_nat n * (7 * nsPerDay)).
Proof.
  split; revert start; induction n as [|n IH]; intros start; simpl nthOccurrence.
  - f_equal. lia.
  - change (GetNextDate start Daily) with (Ok (AddDate start 0 0 1)).
    rewrite AddDate_days, IH. f_equal. lia.
  - f_equal. lia.
  - change (GetNextDate start Weekly) with (Ok (AddDate start 0 0 7)).
    rewrite AddDate_days, IH. f_equal. lia.
Qed.

Lemma normMonth_add y m k j :
  normMonth (normMonth y (m + k)).1 ((normMonth y (m + k)).2 + j) = normMonth y (m + k + j).
Proof.
  unfold normMonth. simpl. f_equal; Z.div_mod_to_equations; lia.
Qed.

(** X18.  A recurrence by months (1, 3, 6 or 12) that starts on a day of the
    month from 1 to 28 has its [n]-th occurrence on the same day of the
    month, [n] steps of months later, at the same time of day. *)
Theorem month_based_occurrences_keep_day freq k start y m d n :
  (freq, k) ∈ [(Monthly, 1); (Quarterly, 3); (SemiAnnual, 6); (Annual, 12)] ->
  civil start = (y, m, d) ->
  d <= 28 ->
  exists t,
    nthOccurrence freq start n = Some t
    /\ civil t = ((normMonth y (m + k * Z.of_nat n)).1, (normMonth y (m + k * Z.of_nat n)).2, d)
    /\ t mod nsPerDay = start mod nsPerDay.
Proof.
  intros Hin Hc Hd. revert start y m Hc. induction n as [|n IH]; intros start y m Hc.
  - exists start. split; [done|]. split; [|done]. rewrite Hc.
    apply civil_spec in Hc as (_ & Hm & _).
    replace (m + k * Z.of_nat 0) with m by lia.
    unfold normMonth. simpl. do 2 f_equal; Z.div_mod_to_equations; lia.
  - destruct (GetNextDate_months start freq k Hin) as (years & months & Hk & Hk0 & Hn).
    pose proof (normMonth_range y (m + k)) as Hr.
    pose proof (daysIn_bounds (normMonth y (m + k)).1 _ Hr) as Hb.
    rewrite Hk in Hb.
    destruct (AddDate_same_day start y m d years months Hc Hk0 ltac:(lia)) as [H1 H2].
    rewrite <- Hk in H1.
    destruct (IH _ _ _ H1) as (t & Ht & Hct & Hmod).
    exists t. split; [simpl; by rewrite Hn|]. split; [|congruence].
    rewrite Hct, normMonth_add.
    replace (m + k + k * Z.of_nat n) with (m + k * Z.of_nat (S n)) by lia. done.
Qed.

Lemma month_based_occurrences_keep_day_witness :
  exists t,
    nthOccurrence Quarterly (Date 2025 11 15 12 0 0 0) 3 = Some t
    /\ civil t = (2026, 8, 15)
    /\ t mod nsPerDay = Date 2025 11 15 12 0 0 0 mod nsPerDay.
Proof.
  apply (month_based_occurrences_keep_day Quarterly 3 (Date 2025 11 15 12 0 0 0) 2025 11 15 3);
    [ set_solver | by vm_compute | by vm_compute ].
Defined.

(** * Edge cases of a run *)

(** X19.  Without events, a valid window gives no entry, and the ledger is the
    initial row alone. *)
Theorem no_events_no_entries initialBalance b e :
  b <= e ->
  GenerateCashflows [] b e = Ok []
  /\ RunSimulation (mkRequest [] initialBalance b e)
     = Ok {| resp_Cashflows := [mkCashflow b 0 initialBalance []] |}.
Proof.
  intros Hbe. unfold RunSimulation. simpl.
  rewrite GenerateCashflows_valid by done.
  unfold cfMapOf. simpl. rewrite map_to_list_empty. done.
Qed.

Lemma no_events_no_entries_witness :
  GenerateCashflows [] (Day 2025 1 1) (Day 2025 12 31) = Ok []
  /\ RunSimulation (mkRequest [] 1000 (Day 2025 1 1) (Day 2025 12 31))
     = Ok {| resp_Cashflows := [mkCashflow (Day 2025 1 1) 0 1000 []] |}.
Proof. apply no_events_no_entries. by vm_compute. Defined.

(** * The order of the events *)




(** * The tests of the package, replayed on the model *)

Example TestIsValidFrequency :
  (IsValidFrequency <$> [Daily; Weekly; Monthly; Quarterly; SemiAnnual; Annual; "invalid"; ""])
  = [true; true; true; true; true; true; false; false].
Proof. by vm_compute. Qed.

Example TestGetNextDate :
  (GetNextDate (Day 2025 1 1) <$> [Daily; Weekly; Monthly; Quarterly; SemiAnnual; Annual])
  = [Ok (Day 2025 1 2); Ok (Day 2025 1 8); Ok (Day 2025 2 1);
     Ok (Day 2025 4 1); Ok (Day 2025 7 1); Ok (Day 2026 1 1)].
Proof. by vm_compute. Qed.

Example TestGetFirstDate :
  GetFirstDate (mkEvent "" (Day 2025 6 1) zeroTime "" 100 "") (Day 2025 1 1) (Day 2025 12 31)
  = (Day 2025 6 1, true)
  /\ (GetFirstDate (mkEvent "" (Day 2026 1 1) zeroTime "" 100 "")
        (Day 2025 1 1) (Day 2025 12 31)).2 = false
  /\ (GetFirstDate (mkEvent "" (Day 2024 1 1) (Day 2024 12 31) "" 100 "")
        (Day 2025 1 1) (Day 2025 12 31)).2 = false
  /\ GetFirstDate (mkEvent "" (Day 2024 1 1) zeroTime Daily 100 "")
       (Day 2025 1 1) (Day 2025 12 31)
     = (Day 2025 1 1, true)
  /\ GetFirstDate (mkEvent "" (Day 2024 6 15) zeroTime Monthly 100 "")
       (Day 2025 1 1) (Day 2025 12 31)
     = (Day 2025 1 15, true).
Proof. by vm_compute. Qed.

Example TestGenerateCashflows_monthly_salary :
  GenerateCashflows [mkEvent "" (Day 2025 1 1) zeroTime Monthly 5000 ""]
    (Day 2025 1 1) (Day 2025 3 31)
  = Ok [mkCashflow (Day 2025 1 1) 5000 0 [mkItem "" 5000];
        mkCashflow (Day 2025 2 1) 5000 0 [mkItem "" 5000];
        mkCashflow (Day 2025 3 1) 5000 0 [mkItem "" 5000]].
Proof. by vm_compute. Qed.

Example TestGenerateCashflows_WithEndDate :
  GenerateCashflows [mkEvent "Contract" (Day 2025 1 1) (Day 2025 3 31) Monthly 1000 ""]
    (Day 2025 1 1) (Day 2025 12 31)
  = Ok [mkCashflow (Day 2025 1 1) 1000 0 [mkItem "Contract" 1000];
        mkCashflow (Day 2025 2 1) 1000 0 [mkItem "Contract" 1000];
        mkCashflow (Day 2025 3 1) 1000 0 [mkItem "Contract" 1000]].
Proof. by vm_compute. Qed.

Example TestBalanceFromCashflows :
  cf_Balance <$> BalanceFromCashflows 5000 (Day 2025 1 1)
    [mkCashflow (Day 2025 1 15) 1000 0 [];
     mkCashflow (Day 2025 2 15) 2000 0 [];
     mkCashflow (Day 2025 3 15) (-500) 0 []]
  = [5000; 6000; 8000; 7500]%float.
Proof. by vm_compute. Qed.

Example TestRunSimulation :
  RunSimulation
    (mkRequest [mkEvent "Salary" (Day 2025 1 1) zeroTime Monthly 5000 "";
                mkEvent "Rent" (Day 2025 1 1) zeroTime Monthly (-1500) ""]
       1000 (Day 2025 1 1) (Day 2025 3 31))
  = Ok {| resp_Cashflows :=
            [mkCashflow (Day 2025 1 1) 0 1000 [];
             mkCashflow (Day 2025 1 1) 3500 4500 [mkItem "Salary" 5000; mkItem "Rent" (-1500)];
             mkCashflow (Day 2025 2 1) 3500 8000 [mkItem "Salary" 5000; mkItem "Rent" (-1500)];
             mkCashflow (Day 2025 3 1) 3500 11500
               [mkItem "Salary" 5000; mkItem "Rent" (-1500)]] |}.
Proof. by vm_compute. Qed.
